(** * processWithDelay: the delayed batch processor of the logic test

    A shallow embedding of [processWithDelay] (the asynchronous function
    that follows the [App] component in [src/apptest/src/App.tsx]) and the
    properties its specification states.

    The function is [async]: it runs on the host's event loop, sets
    timers, listens to an [AbortSignal] and writes to the console.  The
    embedding makes that host explicit:

    - a [State] holds the host clock, the timers that are pending, the
      abort listeners the run has registered, and the trace of every call
      the function makes to the outside ([setTimeout], [addEventListener],
      [clearTimeout], [console.log], [onProgress]);
    - an [AbortSignal] is described by the instant at which its controller
      aborts it (if ever), in a task of its own, and by the side of the
      function's own task on which that task runs when both fall on the
      same instant;
    - instants and delays are whole numbers of milliseconds; synchronous
      code takes no time, and a timer set at instant [t] with delay [d] is
      due at [t + timerDelay d], which is [t + d] for the delays a host
      keeps as they are;
    - the body is written in a state-and-exception monad [Async]: a
      [Throw] that reaches the end of the function is the rejection of the
      promise it returns, [Normal tt] is its fulfilment.

    The module [AnyHost] embeds the function a second time, over a host
    that is free to answer every read of the signal, to settle every
    delay and to end every call of the callback as it likes; what is
    proved there holds on every host.

    The module [UserTable] embeds the computations of the table component
    that [App] renders: the status filter, the pages, the page links, the
    selection and the infinite scroll. *)

From Stdlib Require Import ZArith List Bool String Lia Sorted.
From Stdlib Require Import Floats.PrimFloat.
Import ListNotations.

Set Implicit Arguments.
#[local] Set Warnings "-register-all".

(* ================================================================= *)
(** ** JavaScript values *)

Module JS.

(** The values the [numbers] argument can hold at run time (the test
    harness passes a string and a mixed array under [@ts-ignore]).  A
    number is an IEEE 754 double, so [NaN] and the infinities are
    numbers.  An array is a list of slots; [None] is a hole of a sparse
    array. *)
Inductive JSValue : Type :=
| JUndefined
| JNull
| JBoolean (b : bool)
| JNumber (x : float)
| JBigInt (z : Z)
| JString (s : string)
| JObject
| JArray (elems : list (option JSValue)).

(** [typeof v] *)
Definition typeof (v : JSValue) : string :=
  match v with
  | JUndefined => "undefined"
  | JNull => "object"
  | JBoolean _ => "boolean"
  | JNumber _ => "number"
  | JBigInt _ => "bigint"
  | JString _ => "string"
  | JObject => "object"
  | JArray _ => "object"
  end.

(** [Array.isArray(v)] *)
Definition Array_isArray (v : JSValue) : bool :=
  match v with
  | JArray _ => true
  | _ => false
  end.

(** The slots of an array value (a value that is not an array has none). *)
Definition slots (v : JSValue) : list (option JSValue) :=
  match v with
  | JArray elems => elems
  | _ => []
  end.

(** [arr.some(p)]: the callback is not called on holes. *)
Definition Array_some (p : JSValue -> bool) (elems : list (option JSValue)) : bool :=
  existsb (fun slot => match slot with Some v => p v | None => false end) elems.

(** [arr[i]]: a hole, or an index past the end, reads [undefined]. *)
Definition index (elems : list (option JSValue)) (i : nat) : JSValue :=
  match nth_error elems i with
  | Some (Some v) => v
  | _ => JUndefined
  end.

(** [arr.length] *)
Definition Array_length (elems : list (option JSValue)) : nat := List.length elems.

(** [new Error(message)] *)
Inductive JSError : Type := Error (message : string).

(** The array literal [[x0, x1, ...]] of numbers. *)
Definition numberArray (xs : list float) : list (option JSValue) :=
  map (fun x => Some (JNumber x)) xs.

End JS.
Import JS.

(* ================================================================= *)
(** ** The host: clock, timers, abort signal, trace *)

(** The [onProgress] callback is code of the caller.  The function only
    tests whether it is there and calls it; a call is recorded in the
    trace with its arguments.  In this first embedding the callback
    returns normally and leaves the signal alone; the module [AnyHost]
    below lets it throw and abort the signal. *)
Inductive Callback : Type := callerCallback.

(** [if (onProgress)]: is the callback supplied? *)
Definition supplied (cb : option Callback) : bool :=
  match cb with Some _ => true | None => false end.

(** A call the function makes to the outside world. *)
Inductive Event : Type :=
| SetTimeout (id : nat) (delay : Z)        (* setTimeout(() => resolve(), delayTime) *)
| AddAbortListener (id : nat)              (* signal.addEventListener('abort', ..., {once: true}) *)
| ClearTimeout (id : nat)                  (* clearTimeout(timeoutId), from an abort listener *)
| ConsoleLog (v : JSValue)                 (* console.log(numbers[i]) *)
| OnProgress (processed total : nat).      (* onProgress(i + 1, numbers.length) *)

Record State : Type := mkState {
  clock : Z;                 (* the current instant *)
  nextTimer : nat;           (* the id the next setTimeout returns *)
  pending : list nat;        (* timers set, not yet fired nor cleared *)
  listeners : list nat;      (* abort listeners of this run, each holding its timeoutId *)
  trace : list Event         (* calls made so far, oldest first *)
}.

(** The state of the host when the function is called. *)
Definition hostState (now : Z) (timerSeq : nat) : State :=
  mkState now timerSeq [] [] [].

(** An [AbortSignal], owned by the caller.  [abortTime] is the instant at
    which the controller's [abort()] runs, in a task of its own, if it
    ever does.  The function runs at the instant of the call and then at
    the instants its timers are due.  When the abort falls on one of
    these instants, [beatsTimer] says whether the abort task runs before
    the function does there (before the call, before the task of the
    timer) or after the function has run and is suspended again. *)
Record AbortSignal : Type := mkSignal {
  abortTime : option Z;
  beatsTimer : bool
}.

(** [signal.aborted], read by the function as it runs at instant [now]:
    the abort task has run at an earlier instant, or at this instant
    ahead of the function. *)
Definition aborted (signal : AbortSignal) (now : Z) : bool :=
  match abortTime signal with
  | Some ta => ((ta <? now) || ((ta =? now) && beatsTimer signal))%Z%bool
  | None => false
  end.

(** [signal?.aborted] *)
Definition aborted_opt (signal : option AbortSignal) (now : Z) : bool :=
  match signal with
  | Some s => aborted s now
  | None => false
  end.

(** [a ?? b] *)
Definition nullish {A : Type} (a : option A) (b : A) : A :=
  match a with
  | Some x => x
  | None => b
  end.

(* ================================================================= *)
(** ** The [Async] monad: state and exceptions *)

Inductive Completion (A : Type) : Type :=
| Normal (a : A)
| Throw (e : JSError).
Arguments Normal {A} a.
Arguments Throw {A} e.

Definition Async (A : Type) : Type := State -> Completion A * State.

Definition ret {A : Type} (a : A) : Async A := fun st => (Normal a, st).

Definition throw {A : Type} (e : JSError) : Async A := fun st => (Throw e, st).

Definition bind {A B : Type} (m : Async A) (k : A -> Async B) : Async B :=
  fun st =>
    match m st with
    | (Normal a, st') => k a st'
    | (Throw e, st') => (Throw e, st')
    end.

Notation "m ;; k" := (bind m (fun _ => k))
  (at level 61, right associativity).

(** [if (c) { body }] *)
Definition when (c : bool) (body : Async unit) : Async unit :=
  if c then body else ret tt.

(** Appending a call to the trace. *)
Definition emit (e : Event) : Async unit :=
  fun st => (Normal tt,
             mkState (clock st) (nextTimer st) (pending st) (listeners st)
                     (trace st ++ [e])).

(* ================================================================= *)
(** ** Timers and the abort event *)

Definition remove_id (id : nat) (ids : list nat) : list nat :=
  filter (fun j => negb (Nat.eqb j id)) ids.

(** [setTimeout(cb, delay)]: returns the fresh id; the timer is pending. *)
Definition setTimeout (delay : Z) (st : State) : nat * State :=
  let id := nextTimer st in
  (id,
   mkState (clock st) (S id) (pending st ++ [id]) (listeners st)
           (trace st ++ [SetTimeout id delay])).

(** [signal.addEventListener('abort', () => { clearTimeout(id); reject(..) },
    {once: true})] *)
Definition addAbortListener (id : nat) (st : State) : State :=
  mkState (clock st) (nextTimer st) (pending st) (listeners st ++ [id])
          (trace st ++ [AddAbortListener id]).

(** [clearTimeout(id)] *)
Definition clearTimeout (id : nat) (st : State) : State :=
  mkState (clock st) (nextTimer st) (remove_id id (pending st)) (listeners st)
          (trace st ++ [ClearTimeout id]).

(** The timer [id] fires at instant [due]: its callback resolves the
    promise. *)
Definition fireTimer (id : nat) (due : Z) (st : State) : State :=
  mkState due (nextTimer st) (remove_id id (pending st)) (listeners st) (trace st).

(** The abort event is dispatched at instant [ta]: every listener the run
    registered runs once, in registration order, and is then gone.  Each
    clears the timer it holds; its [reject] settles the promise only if
    that promise is still pending. *)
Definition dispatchAbort (ta : Z) (st : State) : State :=
  let st' := fold_left (fun s id => clearTimeout id s) (listeners st) st in
  mkState ta (nextTimer st') (pending st') [] (trace st').

(** The delay a timer waits when [delay] is asked for.  A negative delay
    counts as 0.  A delay above 2^31 - 1 does not fit the 32-bit signed
    integer the host keeps: Node then sets the delay to 1 ms.  The small
    delays that a host raises to its minimum are kept as asked here, so
    what is proved about instants is proved for the delays that are
    [honoured] below. *)
Definition timerDelay (delay : Z) : Z :=
  if (2147483647 <? delay)%Z then 1%Z else Z.max 0 delay.

(** The delays every host waits out as asked: Node raises a delay below
    1 ms to 1 ms, a browser raises the delay of a nested timer below 4 ms
    to 4 ms, and neither keeps a delay above 2^31 - 1. *)
Definition honoured (delay : Z) : Prop := (4 <= delay <= 2147483647)%Z.

(** The instant, if any, at which the abort event settles a wait that
    starts at [now] with its timer due at [due]: the abort task runs
    after the function was suspended at [now] and before the task of the
    timer at [due]. *)
Definition interruptedAt (s : AbortSignal) (now due : Z) : option Z :=
  match abortTime s with
  | Some ta => if negb (aborted s now) && aborted s due then Some ta else None
  | None => None
  end.

Definition CancelledError : JSError := Error "Operation was cancelled".

(** The awaited promise of lines 99-109:
[[
      await new Promise<void>((resolve, reject) => {
        const timeoutId = setTimeout(() => resolve(), delayTime);
        if (signal) {
          signal.addEventListener('abort', () => {
            clearTimeout(timeoutId);
            reject(new Error('Operation was cancelled'));
          }, { once: true });
        }
      });
]]
    The executor runs at once; then the function is suspended until the
    timer or the abort event settles the promise. *)
Definition awaitDelay (delayTime : Z) (signal : option AbortSignal) : Async unit :=
  fun st0 =>
    let now := clock st0 in
    let due := (now + timerDelay delayTime)%Z in
    let (timeoutId, st1) := setTimeout delayTime st0 in
    match signal with
    | None => (Normal tt, fireTimer timeoutId due st1)
    | Some s =>
        let st2 := addAbortListener timeoutId st1 in
        match interruptedAt s now due with
        | Some ta => (Throw CancelledError, dispatchAbort ta st2)
        | None => (Normal tt, fireTimer timeoutId due st2)
        end
    end.

(* ================================================================= *)
(** ** processWithDelay *)

Section ProcessWithDelay.

Variable numbers : list (option JSValue).
Variable delayTime : Z.
Variable onProgress : option Callback.
Variable signal : option AbortSignal.

(** [if (signal?.aborted) throw new Error('Operation was cancelled')] *)
Definition checkCancelled : Async unit :=
  fun st =>
    if aborted_opt signal (clock st)
    then throw CancelledError st
    else ret tt st.

(** The body of the [for] loop, for index [i]. *)
Definition loopBody (i : nat) : Async unit :=
  checkCancelled ;;
  awaitDelay delayTime signal ;;
  checkCancelled ;;
  emit (ConsoleLog (index numbers i)) ;;
  when (supplied onProgress)
       (emit (OnProgress (i + 1) (Array_length numbers))).

(** [for (let i = ...; i < numbers.length; i++) body], with [todo]
    iterations left: the loop is entered with [i = 0] and
    [todo = numbers.length], so [todo = numbers.length - i] throughout,
    and [i < numbers.length] is [todo <> 0]. *)
Fixpoint forLoop (todo : nat) (i : nat) : Async unit :=
  match todo with
  | O => ret tt
  | S todo' => loopBody i ;; forLoop todo' (S i)
  end.

(** *** What one iteration does, spelled out

    The calls a complete iteration [i] makes when its timer has id [id]. *)
Definition iterationTrace (id i : nat) : list Event :=
  SetTimeout id delayTime ::
  match signal with Some _ => [AddAbortListener id] | None => [] end ++
  ConsoleLog (index numbers i) ::
  match onProgress with
  | Some _ => [OnProgress (i + 1) (Array_length numbers)]
  | None => []
  end.

(** The calls of [todo] complete iterations from index [i] on. *)
Fixpoint runTrace (todo id i : nat) : list Event :=
  match todo with
  | O => []
  | S todo' => iterationTrace id i ++ runTrace todo' (S id) (S i)
  end.

(** The state a complete iteration [i] leaves. *)
Definition afterIteration (i : nat) (st : State) : State :=
  let id := nextTimer st in
  mkState (clock st + timerDelay delayTime) (S id)
          (remove_id id (pending st ++ [id]))
          (match signal with
           | Some _ => listeners st ++ [id]
           | None => listeners st
           end)
          (trace st ++ iterationTrace id i).

(** The state [todo] complete iterations from index [i] on leave. *)
Fixpoint afterRun (todo i : nat) (st : State) : State :=
  match todo with
  | O => st
  | S todo' => afterRun todo' (S i) (afterIteration i st)
  end.

(** The state after [setTimeout] and [addEventListener], while the
    function is suspended. *)
Definition suspended (st : State) : State :=
  mkState (clock st) (S (nextTimer st)) (pending st ++ [nextTimer st])
          (listeners st ++ [nextTimer st])
          (trace st ++ [SetTimeout (nextTimer st) delayTime;
                        AddAbortListener (nextTimer st)]).

End ProcessWithDelay.

(** The options object; every field is optional.  [delayTime] is a whole
    number of milliseconds. *)
Record Options : Type := mkOptions {
  delayTime : option Z;
  onProgress : option Callback;
  signal : option AbortSignal
}.

(** The default [options = {}]. *)
Definition noOptions : Options := mkOptions None None None.

Definition InvalidInputError : JSError := Error "Input must be an array of numbers".
Definition InvalidElementError : JSError := Error "All elements in the array must be numbers".

(** The error kinds of the specification are the three errors the function
    throws. *)
Definition InvalidInputKind : JSError := InvalidInputError.
Definition InvalidElementKind : JSError := InvalidElementError.
Definition CancelledKind : JSError := CancelledError.

Definition processWithDelay (numbers : JSValue) (options : Options) : Async unit :=
  if negb (Array_isArray numbers) then
    throw (Error "Input must be an array of numbers")
  else if Array_some (fun item => negb (String.eqb (typeof item) "number")) (slots numbers) then
    throw (Error "All elements in the array must be numbers")
  else if Nat.eqb (Array_length (slots numbers)) 0 then
    ret tt
  else
    let delayTime := nullish (delayTime options) 1000%Z in
    let onProgress := onProgress options in
    let signal := signal options in
    forLoop (slots numbers) delayTime onProgress signal
            (Array_length (slots numbers)) 0.

(* ================================================================= *)
(** ** Observations on a trace *)

(** The values written to the console, in order. *)
Definition emissions (tr : list Event) : list JSValue :=
  flat_map (fun e => match e with ConsoleLog v => [v] | _ => [] end) tr.

(** The argument pairs of the calls to [onProgress], in order. *)
Definition progressCalls (tr : list Event) : list (nat * nat) :=
  flat_map (fun e => match e with OnProgress p t => [(p, t)] | _ => [] end) tr.

(** The delays of the timers set, in order. *)
Definition timeouts (tr : list Event) : list Z :=
  flat_map (fun e => match e with SetTimeout _ d => [d] | _ => [] end) tr.

(** The timers cleared, in order. *)
Definition cleared (tr : list Event) : list nat :=
  flat_map (fun e => match e with ClearTimeout id => [id] | _ => [] end) tr.

Definition isItemEvent (e : Event) : bool :=
  match e with
  | ConsoleLog _ | OnProgress _ _ => true
  | _ => false
  end.

(** The per-item actions and progress calls, interleaved as they happened. *)
Definition itemEvents (tr : list Event) : list Event := filter isItemEvent tr.

(** The item actions and progress calls of a complete run over the
    numbers [xs], the first of them being item number [k] of [total]. *)
Fixpoint expectedItems (withProgress : bool) (total k : nat) (xs : list float)
  : list Event :=
  match xs with
  | [] => []
  | x :: xs' =>
      ConsoleLog (JNumber x) ::
      (if withProgress then [OnProgress k total] else []) ++
      expectedItems withProgress total (S k) xs'
  end.

(** No cancellation: there is no signal, or its controller never aborts. *)
Definition neverCancelled (signal : option AbortSignal) : Prop :=
  match signal with
  | Some s => abortTime s = None
  | None => True
  end.

(** The signal is still active at instant [t] and at every earlier one. *)
Definition activeThrough (signal : option AbortSignal) (t : Z) : Prop :=
  match signal with
  | Some s => match abortTime s with Some ta => (t < ta)%Z | None => True end
  | None => True
  end.

(** The abort does not reach the function by instant [t]: there is no
    signal, or its controller never aborts, or it aborts after [t], or at
    [t] itself in a task that runs after the function has run there. *)
Definition abortMisses (signal : option AbortSignal) (t : Z) : Prop :=
  match signal with
  | Some s =>
      match abortTime s with
      | Some ta => (t < ta)%Z \/ (ta = t /\ beatsTimer s = false)
      | None => True
      end
  | None => True
  end.

(** What reading a slot gives: the element, or [undefined] for a hole. *)
Definition slotValue (slot : option JSValue) : JSValue :=
  match slot with
  | Some v => v
  | None => JUndefined
  end.

(** A trace without its listener registrations. *)
Definition withoutListeners (tr : list Event) : list Event :=
  filter (fun e => match e with AddAbortListener _ => false | _ => true end) tr.

(* ================================================================= *)
(** ** processWithDelay on any host

    The embedding above fixes what the host does: timers fire when due,
    the abort comes in a task of its own, the callback returns.  Here the
    function is embedded again with the host left free.  A [Host] says,
    for each iteration [i] of the loop, what the read of [signal.aborted]
    at the head of the loop gives (line 94), what settles the promise of
    the delay (lines 99-109), what the read after the delay gives (line
    112), and, for each call of [onProgress] (line 121), how it ends and
    whether it has aborted the signal.  The reads are not tied to the
    aborts, so every run of the function on a real host is a run on some
    [Host]; the clock plays no part and is left as it is. *)

Module AnyHost.

(** How a call of [onProgress] ends: the function does not catch what it
    throws. *)
Inductive CallbackResult : Type :=
| Returns
| Throws (e : JSError).

(** How the delay of an iteration goes: the timer fires and the function
    resumes; or the abort event comes while the timer is pending, and the
    listener clears the timer and rejects the promise; or the timer fires
    and the abort event comes before the function has resumed, so that
    the listeners run but their [reject] finds the promise resolved. *)
Inductive Settlement : Type :=
| TimerFirst
| AbortFirst
| TimerThenAbort.

Record Host : Type := mkHost {
  abortedAtLoopHead : nat -> bool;
  settlement : nat -> Settlement;
  abortedAfterDelay : nat -> bool;
  progressCall : nat -> nat -> CallbackResult;
  abortInCallback : nat -> nat -> bool
}.

(** The abort event is dispatched: the listeners registered so far run. *)
Definition abortDispatched (st : State) : State := dispatchAbort (clock st) st.

Section OnHost.

Variable host : Host.
Variable numbers : list (option JSValue).
Variable delayTime : Z.
Variable onProgress : option Callback.
Variable signal : option AbortSignal.

(** [if (signal?.aborted) throw new Error('Operation was cancelled')],
    where the read gives [read] when there is a signal. *)
Definition checkCancelled (read : bool) : Async unit :=
  match signal with
  | Some _ => if read then throw CancelledError else ret tt
  | None => ret tt
  end.

(** The awaited promise of lines 99-109, in iteration [i]. *)
Definition awaitDelay (i : nat) : Async unit :=
  fun st0 =>
    let (timeoutId, st1) := setTimeout delayTime st0 in
    match signal with
    | None => (Normal tt, fireTimer timeoutId (clock st1) st1)
    | Some _ =>
        let st2 := addAbortListener timeoutId st1 in
        match settlement host i with
        | TimerFirst => (Normal tt, fireTimer timeoutId (clock st2) st2)
        | AbortFirst => (Throw CancelledError, abortDispatched st2)
        | TimerThenAbort =>
            (Normal tt, abortDispatched (fireTimer timeoutId (clock st2) st2))
        end
    end.

(** [onProgress(processed, total)]: the call is made; if the callback
    aborts the signal, the listeners run inside the call; the call then
    ends as the host says. *)
Definition callOnProgress (processed total : nat) : Async unit :=
  fun st =>
    let st1 := snd (emit (OnProgress processed total) st) in
    let st2 := match signal with
               | Some _ =>
                   if abortInCallback host processed total
                   then abortDispatched st1 else st1
               | None => st1
               end in
    match progressCall host processed total with
    | Returns => (Normal tt, st2)
    | Throws e => (Throw e, st2)
    end.

(** The body of the [for] loop, for index [i]. *)
Definition loopBody (i : nat) : Async unit :=
  checkCancelled (abortedAtLoopHead host i) ;;
  awaitDelay i ;;
  checkCancelled (abortedAfterDelay host i) ;;
  emit (ConsoleLog (index numbers i)) ;;
  when (supplied onProgress)
       (callOnProgress (i + 1) (Array_length numbers)).

(** The loop, with [todo] iterations left. *)
Fixpoint forLoop (todo : nat) (i : nat) : Async unit :=
  match todo with
  | O => ret tt
  | S todo' => loopBody i ;; forLoop todo' (S i)
  end.

(** One of the three cancellation checks of iteration [i] finds the
    signal aborted: the read at the head of the loop, the abort listener
    during the delay, the read after the delay. *)
Definition sees (i : nat) : bool :=
  match signal with
  | Some _ =>
      abortedAtLoopHead host i
      || match settlement host i with AbortFirst => true | _ => false end
      || abortedAfterDelay host i
  | None => false
  end.

(** The call of [onProgress] of iteration [i], if there is one, returns. *)
Definition reports (i : nat) : bool :=
  match onProgress with
  | Some _ =>
      match progressCall host (i + 1) (Array_length numbers) with
      | Returns => true
      | Throws _ => false
      end
  | None => true
  end.

(** Iteration [i] runs to its end: no check finds the signal aborted and
    the callback returns. *)
Definition completes (i : nat) : bool := negb (sees i) && reports i.

End OnHost.

Definition processWithDelay (host : Host) (numbers : JSValue) (options : Options)
  : Async unit :=
  if negb (Array_isArray numbers) then
    throw (Error "Input must be an array of numbers")
  else if Array_some (fun item => negb (String.eqb (typeof item) "number")) (slots numbers) then
    throw (Error "All elements in the array must be numbers")
  else if Nat.eqb (Array_length (slots numbers)) 0 then
    ret tt
  else
    let delayTime := nullish (delayTime options) 1000%Z in
    let onProgress := onProgress options in
    let signal := signal options in
    forLoop host (slots numbers) delayTime onProgress signal
            (Array_length (slots numbers)) 0.

(** The host of the first embedding, for a call made at instant [now]:
    the reads and the settlement of iteration [i] are what the instant of
    the abort makes them, and the callback returns and leaves the signal
    alone. *)
Definition scheduledHost (now : Z) (delayTime : Z) (signal : option AbortSignal)
  : Host :=
  let start := fun i : nat => (now + Z.of_nat i * timerDelay delayTime)%Z in
  mkHost (fun i => aborted_opt signal (start i))
         (fun i => match signal with
                   | Some s =>
                       match interruptedAt s (start i) (start (S i)) with
                       | Some _ => AbortFirst
                       | None => TimerFirst
                       end
                   | None => TimerFirst
                   end)
         (fun i => aborted_opt signal (start (S i)))
         (fun _ _ => Returns)
         (fun _ _ => false).

End AnyHost.

(** A state with its clock set to [t]. *)
Definition atClock (t : Z) (st : State) : State :=
  mkState t (nextTimer st) (pending st) (listeners st) (trace st).

(* ================================================================= *)
(** ** The user table

    The [UserTable] component that [App] renders keeps its state in hooks
    and computes what it shows from that state.  The computations are
    embedded here as functions of the state they read: the status filter,
    the pagination arithmetic and the page slice, the page links, the two
    selection handlers and the loader of the infinite scroll.  A handler
    is the function from the state it closes over to the state its
    [set...] calls leave.  Lengths, indices and page numbers are integers.
    The sort is left out: it rests on [localeCompare] and on the host's
    [Array.prototype.sort]; [sortedUsers] is an argument wherever the
    code reads it. *)

Module UserTable.

(** [interface TUser]; [registerAt] is the time value of the [Date]. *)
Record TUser : Type := mkUser {
  id : string;
  name : string;
  balance : float;
  email : string;
  registerAt : Z;
  active : bool
}.

(** [arr.slice(start, end)] with integer arguments: a negative index
    counts from the end, and both are clamped to the array. *)
Definition slice {A : Type} (arr : list A) (start finish : Z) : list A :=
  let len := Z.of_nat (List.length arr) in
  let k := if (start <? 0)%Z then Z.max (len + start) 0 else Z.min start len in
  let final := if (finish <? 0)%Z then Z.max (len + finish) 0 else Z.min finish len in
  firstn (Z.to_nat (final - k)) (skipn (Z.to_nat k) arr).

(** [arr.includes(x)] on strings *)
Definition includes (x : string) (arr : list string) : bool :=
  existsb (String.eqb x) arr.

(** [filteredUsers] (lines 187-196) *)
Definition filteredUsers (users : list TUser) (filterStatus : string) : list TUser :=
  filter (fun user =>
            if String.eqb filterStatus "active" then active user
            else if String.eqb filterStatus "inactive" then negb (active user)
            else true)
         users.

(** [Math.ceil(a / b)] for integers [0 <= a] and [0 < b]. *)
Definition ceilDiv (a b : Z) : Z := ((a + b - 1) / b)%Z.

(** Lines 217-220. *)
Definition totalPages (sortedUsers : list TUser) (rowsPerPage : Z) : Z :=
  ceilDiv (Z.of_nat (List.length sortedUsers)) rowsPerPage.

Definition startIndex (currentPage rowsPerPage : Z) : Z :=
  ((currentPage - 1) * rowsPerPage)%Z.

Definition endIndex (currentPage rowsPerPage : Z) : Z :=
  (startIndex currentPage rowsPerPage + rowsPerPage)%Z.

Definition currentUsers (sortedUsers : list TUser) (currentPage rowsPerPage : Z)
  : list TUser :=
  slice sortedUsers (startIndex currentPage rowsPerPage)
        (endIndex currentPage rowsPerPage).

(** The numbers of the text [Showing a to b of c entries] (line 589). *)
Definition showingFrom (currentPage rowsPerPage : Z) : Z :=
  (startIndex currentPage rowsPerPage + 1)%Z.

Definition showingTo (sortedUsers : list TUser) (currentPage rowsPerPage : Z) : Z :=
  Z.min (endIndex currentPage rowsPerPage) (Z.of_nat (List.length sortedUsers)).

(** The updaters of the Previous and Next buttons (lines 598 and 607). *)
Definition previousPage (prev : Z) : Z := Z.max 1 (prev - 1).

Definition nextPage (totalPages prev : Z) : Z := Z.min totalPages (prev + 1).

(** The buttons are dimmed and take no click under these conditions
    (lines 599 and 608). *)
Definition previousDisabled (currentPage : Z) : bool := (currentPage =? 1)%Z.

Definition nextDisabled (currentPage totalPages : Z) : bool :=
  (currentPage =? totalPages)%Z.

(** What [renderPaginationItems] pushes: a link to a page, which is
    active when it is the current page and sets the current page to its
    number when clicked, or one of the two ellipses. *)
Inductive PaginationEntry : Type :=
| PageLink (page : Z) (isActive : bool)
| EllipsisStart
| EllipsisEnd.

(** The values of [i] in [for (let i = lo; i <= hi; i++)]. *)
Definition fromTo (lo hi : Z) : list Z :=
  map (fun k => (lo + Z.of_nat k)%Z) (seq 0 (Z.to_nat (hi - lo + 1))).

(** [renderPaginationItems] (lines 281-361) *)
Definition renderPaginationItems (currentPage totalPages : Z) : list PaginationEntry :=
  let maxVisiblePages := 5%Z in
  if (totalPages <=? maxVisiblePages)%Z then
    map (fun i => PageLink i (currentPage =? i)%Z) (fromTo 1 totalPages)
  else
    [PageLink 1 (currentPage =? 1)%Z]
    ++ (if (currentPage >? 3)%Z then [EllipsisStart] else [])
    ++ (let startPage := Z.max 2 (currentPage - 1) in
        let endPage := Z.min (totalPages - 1) (currentPage + 1) in
        map (fun i => PageLink i (currentPage =? i)%Z) (fromTo startPage endPage))
    ++ (if (currentPage <? totalPages - 2)%Z then [EllipsisEnd] else [])
    ++ [PageLink totalPages (currentPage =? totalPages)%Z].

(** The pages linked, in order. *)
Definition linkedPages (items : list PaginationEntry) : list Z :=
  flat_map (fun e => match e with PageLink p _ => [p] | _ => [] end) items.

(** The pages whose link is shown as active, in order. *)
Definition activePages (items : list PaginationEntry) : list Z :=
  flat_map (fun e => match e with PageLink p true => [p] | _ => [] end) items.

(** The selection state: [selectedUsers] and [selectAll]. *)
Record Selection : Type := mkSelection {
  selectedUsers : list string;
  selectAll : bool
}.

(** [toggleSelectAll] (lines 162-170); [targetUsers] is the list shown,
    [isInfiniteScroll ? visibleUsers : currentUsers]. *)
Definition toggleSelectAll (targetUsers : list TUser) (st : Selection) : Selection :=
  if selectAll st
  then mkSelection [] (negb (selectAll st))
  else mkSelection (map id targetUsers) (negb (selectAll st)).

(** [toggleSelectUser] (lines 172-184) *)
Definition toggleSelectUser (targetUsers : list TUser) (uid : string)
           (st : Selection) : Selection :=
  if includes uid (selectedUsers st)
  then mkSelection (filter (fun userId => negb (String.eqb userId uid))
                           (selectedUsers st))
                   false
  else mkSelection (selectedUsers st ++ [uid])
                   (if Nat.eqb (List.length (selectedUsers st) + 1)
                               (List.length targetUsers)
                    then true else selectAll st).

(** The selection and the header checkbox agree on the list shown: no
    user is selected twice, every selected user is shown, and the header
    checkbox is checked exactly when every user shown is selected. *)
Definition consistent (targetUsers : list TUser) (st : Selection) : Prop :=
  NoDup (selectedUsers st)
  /\ incl (selectedUsers st) (map id targetUsers)
  /\ (selectAll st = true <-> incl (map id targetUsers) (selectedUsers st)).

(** The state of the infinite scroll: [visibleUsers] and [loadingMore]. *)
Record Scroll : Type := mkScroll {
  visibleUsers : list TUser;
  loadingMore : bool
}.

Definition infiniteScrollChunkSize : Z := 20.

(** The effect of lines 235-239, when [isInfiniteScroll] holds. *)
Definition resetVisible (sortedUsers : list TUser) (st : Scroll) : Scroll :=
  mkScroll (slice sortedUsers 0 infiniteScrollChunkSize) (loadingMore st).

(** [loadMoreItems] (lines 242-255): the state it leaves and, when it
    sets a timer, the [nextItems] the timer's callback will append (they
    are computed from the values the callback closes over). *)
Definition loadMoreItems (sortedUsers : list TUser) (st : Scroll)
  : Scroll * option (list TUser) :=
  if loadingMore st
     || (Z.of_nat (List.length (visibleUsers st))
         >=? Z.of_nat (List.length sortedUsers))%Z
  then (st, None)
  else (mkScroll (visibleUsers st) true,
        Some (slice sortedUsers
                    (Z.of_nat (List.length (visibleUsers st)))
                    (Z.of_nat (List.length (visibleUsers st))
                     + infiniteScrollChunkSize))).

(** The callback of the timer of [loadMoreItems], 500 ms later. *)
Definition loadMoreTimer (nextItems : list TUser) (st : Scroll) : Scroll :=
  mkScroll (visibleUsers st ++ nextItems) false.

(** One load from start to end: [loadMoreItems], then its timer. *)
Definition loadMore (sortedUsers : list TUser) (st : Scroll) : Scroll :=
  match loadMoreItems sortedUsers st with
  | (st', Some nextItems) => loadMoreTimer nextItems st'
  | (st', None) => st'
  end.

(** Users for the examples, with ids as [generateSampleData] forms them. *)
Definition sampleUser (uid : string) (isActive : bool) : TUser :=
  mkUser uid "Andrew Taylor" 5000%float "andrew.taylor@gmail.com" 0 isActive.

Definition sampleUsers : list TUser :=
  [sampleUser "user-1" true; sampleUser "user-2" false; sampleUser "user-3" true;
   sampleUser "user-4" true; sampleUser "user-5" false; sampleUser "user-6" true;
   sampleUser "user-7" false].

End UserTable.

(* ================================================================= *)
(** ** Runs of the test harness *)

(** Test 6: five items, the default delay, a progress callback, and
    [controller.abort()] 1200 ms after the call.  The first item is
    processed at 1000; the abort interrupts the second delay at 1200, and
    both listeners registered so far run. *)
Example test6_cancellation :
  processWithDelay
    (JArray (numberArray [1%float; 2%float; 3%float; 4%float; 5%float]))
    (mkOptions None (Some callerCallback) (Some (mkSignal (Some 1200%Z) true)))
    (hostState 0 0)
  = (Throw (Error "Operation was cancelled"),
     mkState 1200 2 [] []
             [SetTimeout 0 1000; AddAbortListener 0;
              ConsoleLog (JNumber 1); OnProgress 1 5;
              SetTimeout 1 1000; AddAbortListener 1;
              ClearTimeout 0; ClearTimeout 1]).
Proof. reflexivity. Qed.

(** The abort lands on the very instant the second timer is due and the
    task of the timer runs first: the function resumes and processes the
    second item before the abort task runs, and the abort then interrupts
    the third delay as it begins. *)
Example abort_on_the_due_instant :
  processWithDelay
    (JArray (numberArray [1%float; 2%float; 3%float]))
    (mkOptions (Some 500%Z) None (Some (mkSignal (Some 1000%Z) false)))
    (hostState 0 0)
  = (Throw (Error "Operation was cancelled"),
     mkState 1000 3 [] []
             [SetTimeout 0 500; AddAbortListener 0; ConsoleLog (JNumber 1);
              SetTimeout 1 500; AddAbortListener 1; ConsoleLog (JNumber 2);
              SetTimeout 2 500; AddAbortListener 2;
              ClearTimeout 0; ClearTimeout 1; ClearTimeout 2]).
Proof. reflexivity. Qed.

(** The same with the abort task first: the listener of the second delay
    rejects the promise, and the second item is not processed. *)
Example abort_ahead_of_the_timer :
  processWithDelay
    (JArray (numberArray [1%float; 2%float; 3%float]))
    (mkOptions (Some 500%Z) None (Some (mkSignal (Some 1000%Z) true)))
    (hostState 0 0)
  = (Throw (Error "Operation was cancelled"),
     mkState 1000 2 [] []
             [SetTimeout 0 500; AddAbortListener 0; ConsoleLog (JNumber 1);
              SetTimeout 1 500; AddAbortListener 1;
              ClearTimeout 0; ClearTimeout 1]).
Proof. reflexivity. Qed.

(** A delay of 2^31 ms is not kept: the run of one item ends after 1 ms. *)
Example delay_too_long_for_the_host :
  processWithDelay
    (JArray (numberArray [1%float]))
    (mkOptions (Some 2147483648%Z) None (Some (mkSignal (Some 1000%Z) true)))
    (hostState 0 0)
  = (Normal tt,
     mkState 1 1 [] [0]
             [SetTimeout 0 2147483648; AddAbortListener 0; ConsoleLog (JNumber 1)]).
Proof. reflexivity. Qed.

(** On a host whose callback calls [controller.abort()] when it reports
    the first item: the listener of the first delay runs inside the call,
    and the read at the head of the second iteration finds the signal
    aborted. *)
Example abort_inside_the_callback :
  AnyHost.processWithDelay
    (AnyHost.mkHost (fun i => Nat.leb 1 i) (fun _ => AnyHost.TimerFirst)
                    (fun _ => false) (fun _ _ => AnyHost.Returns)
                    (fun processed _ => Nat.eqb processed 1))
    (JArray (numberArray [1%float; 2%float; 3%float]))
    (mkOptions (Some 500%Z) (Some callerCallback) (Some (mkSignal None true)))
    (hostState 0 0)
  = (Throw (Error "Operation was cancelled"),
     mkState 0 1 [] []
             [SetTimeout 0 500; AddAbortListener 0;
              ConsoleLog (JNumber 1); OnProgress 1 3; ClearTimeout 0]).
Proof. reflexivity. Qed.

(** On a host where the second timer fires and the abort comes before
    the function has resumed: the check after the delay throws. *)
Example abort_between_timer_and_resumption :
  AnyHost.processWithDelay
    (AnyHost.mkHost (fun _ => false)
                    (fun i => if Nat.eqb i 1 then AnyHost.TimerThenAbort
                              else AnyHost.TimerFirst)
                    (fun i => Nat.eqb i 1) (fun _ _ => AnyHost.Returns)
                    (fun _ _ => false))
    (JArray (numberArray [1%float; 2%float; 3%float]))
    (mkOptions (Some 500%Z) None (Some (mkSignal None true)))
    (hostState 0 0)
  = (Throw (Error "Operation was cancelled"),
     mkState 0 2 [] []
             [SetTimeout 0 500; AddAbortListener 0; ConsoleLog (JNumber 1);
              SetTimeout 1 500; AddAbortListener 1;
              ClearTimeout 0; ClearTimeout 1]).
Proof. reflexivity. Qed.

(** Test 3, shortened to two items. *)
Example test3_progress :
  processWithDelay
    (JArray (numberArray [1%float; 2%float]))
    (mkOptions (Some 500%Z) (Some callerCallback) None)
    (hostState 0 0)
  = (Normal tt,
     mkState 1000 2 [] []
             [SetTimeout 0 500; ConsoleLog (JNumber 1); OnProgress 1 2;
              SetTimeout 1 500; ConsoleLog (JNumber 2); OnProgress 2 2]).
Proof. reflexivity. Qed.

(** [some] skips the hole of a sparse array, which then reads [undefined]. *)
Example sparse_array :
  processWithDelay
    (JArray [Some (JNumber 1); None]) (mkOptions (Some 0%Z) None None)
    (hostState 0 0)
  = (Normal tt,
     mkState 0 2 [] []
             [SetTimeout 0 0; ConsoleLog (JNumber 1);
              SetTimeout 1 0; ConsoleLog JUndefined]).
Proof. reflexivity. Qed.

(* ================================================================= *)
(** ** Lemmas on traces *)

Lemma emissions_app (a b : list Event) :
  emissions (a ++ b) = emissions a ++ emissions b.
Proof. apply flat_map_app. Qed.

Lemma progressCalls_app (a b : list Event) :
  progressCalls (a ++ b) = progressCalls a ++ progressCalls b.
Proof. apply flat_map_app. Qed.

Lemma timeouts_app (a b : list Event) :
  timeouts (a ++ b) = timeouts a ++ timeouts b.
Proof. apply flat_map_app. Qed.

Lemma cleared_app (a b : list Event) :
  cleared (a ++ b) = cleared a ++ cleared b.
Proof. apply flat_map_app. Qed.

Lemma itemEvents_app (a b : list Event) :
  itemEvents (a ++ b) = itemEvents a ++ itemEvents b.
Proof. apply filter_app. Qed.

Lemma itemEvents_clear (ids : list nat) :
  itemEvents (map ClearTimeout ids) = [].
Proof. induction ids as [|id ids IH]; [reflexivity | exact IH]. Qed.

Lemma emissions_itemEvents (tr : list Event) :
  emissions (itemEvents tr) = emissions tr.
Proof.
  induction tr as [|e tr IH]; [reflexivity|].
  destruct e; cbn [itemEvents filter isItemEvent]; fold (itemEvents tr);
    change (emissions (?x :: ?l)) with (emissions [x] ++ emissions l);
    rewrite IH; reflexivity.
Qed.

Lemma progressCalls_itemEvents (tr : list Event) :
  progressCalls (itemEvents tr) = progressCalls tr.
Proof.
  induction tr as [|e tr IH]; [reflexivity|].
  destruct e; cbn [itemEvents filter isItemEvent]; fold (itemEvents tr);
    change (progressCalls (?x :: ?l)) with (progressCalls [x] ++ progressCalls l);
    rewrite IH; reflexivity.
Qed.

(* ================================================================= *)
(** ** Lemmas on the abort event *)

Lemma clearAll_trace (ls : list nat) (st : State) :
  trace (fold_left (fun s id => clearTimeout id s) ls st)
  = trace st ++ map ClearTimeout ls.
Proof.
  revert st; induction ls as [|id ls IH]; intros st; cbn [fold_left map].
  - now rewrite app_nil_r.
  - rewrite IH. cbn [clearTimeout trace]. now rewrite <- app_assoc.
Qed.

Lemma clearAll_pending (ls : list nat) (st : State) :
  pending (fold_left (fun s id => clearTimeout id s) ls st)
  = fold_left (fun p id => remove_id id p) ls (pending st).
Proof.
  revert st; induction ls as [|id ls IH]; intros st; cbn [fold_left].
  - reflexivity.
  - now rewrite IH.
Qed.

Lemma dispatchAbort_trace (ta : Z) (st : State) :
  trace (dispatchAbort ta st) = trace st ++ map ClearTimeout (listeners st).
Proof. unfold dispatchAbort; cbn [trace]. apply clearAll_trace. Qed.

Lemma removeAll_nil (ls : list nat) :
  fold_left (fun p id => remove_id id p) ls [] = [].
Proof. induction ls as [|id ls IH]; [reflexivity | exact IH]. Qed.

Lemma removeAll_single (id : nat) (ls : list nat) :
  In id ls -> fold_left (fun p j => remove_id j p) ls [id] = [].
Proof.
  induction ls as [|j ls IH]; intros Hin; [destruct Hin|].
  cbn [fold_left remove_id filter].
  destruct (Nat.eqb id j) eqn:E; cbn [negb].
  - apply removeAll_nil.
  - apply IH. destruct Hin as [->|Hin]; [|exact Hin].
    now rewrite Nat.eqb_refl in E.
Qed.

Lemma remove_fresh (id : nat) : remove_id id [id] = [].
Proof. unfold remove_id; cbn [filter]. now rewrite Nat.eqb_refl. Qed.

(* ================================================================= *)
(** ** Reading the signal *)

(** Once seen aborted, the signal is seen aborted at every later instant. *)
Lemma aborted_later (s : AbortSignal) (t1 t2 : Z) :
  (t1 <= t2)%Z -> aborted s t1 = true -> aborted s t2 = true.
Proof.
  unfold aborted. destruct (abortTime s) as [ta|]; [|discriminate].
  intros Hle H. apply orb_true_iff in H. apply orb_true_iff.
  destruct H as [H|H].
  - left. apply Z.ltb_lt in H. apply Z.ltb_lt. lia.
  - apply andb_true_iff in H. destruct H as [H Hb]. apply Z.eqb_eq in H. subst ta.
    destruct (Z.eq_dec t1 t2) as [->|Hne].
    + right. now rewrite Z.eqb_refl.
    + left. apply Z.ltb_lt. lia.
Qed.

Lemma aborted_before (s : AbortSignal) (ta now : Z) :
  abortTime s = Some ta -> (ta < now)%Z -> aborted s now = true.
Proof.
  intros Hta H. unfold aborted. rewrite Hta.
  apply orb_true_iff. left. now apply Z.ltb_lt.
Qed.

Lemma aborted_not_yet (s : AbortSignal) (ta now : Z) :
  abortTime s = Some ta -> (now < ta)%Z -> aborted s now = false.
Proof.
  intros Hta H. unfold aborted. rewrite Hta.
  destruct (Z.ltb_spec ta now); [lia|].
  destruct (Z.eqb_spec ta now); [lia|]. reflexivity.
Qed.

Lemma aborted_on_the_instant (s : AbortSignal) (ta : Z) :
  abortTime s = Some ta -> aborted s ta = beatsTimer s.
Proof.
  intros Hta. unfold aborted. rewrite Hta, Z.ltb_irrefl, Z.eqb_refl. reflexivity.
Qed.

Lemma timerDelay_nonneg (d : Z) : (0 <= timerDelay d)%Z.
Proof. unfold timerDelay. destruct (2147483647 <? d)%Z; lia. Qed.


Lemma timerDelay_honoured (d : Z) : honoured d -> timerDelay d = d.
Proof.
  unfold honoured, timerDelay. intros H.
  destruct (Z.ltb_spec 2147483647 d); lia.
Qed.

(* ================================================================= *)
(** ** One iteration *)

Section Iteration.

Variable numbers : list (option JSValue).
Variable delayTime : Z.
Variable onProgress : option Callback.
Variable signal : option AbortSignal.

Lemma suspended_eq (st : State) :
  addAbortListener (nextTimer st) (snd (setTimeout delayTime st))
  = suspended delayTime st.
Proof.
  unfold suspended, addAbortListener, setTimeout; cbn.
  now rewrite <- app_assoc.
Qed.

(** The signal is not seen aborted when the timer is due: the iteration
    runs to its end. *)
Lemma loopBody_normal (i : nat) (st : State) :
  aborted_opt signal (clock st + timerDelay delayTime) = false ->
  loopBody numbers delayTime onProgress signal i st =
    (Normal tt, afterIteration numbers delayTime onProgress signal i st).
Proof.
  intros Hdue.
  assert (Hpre : aborted_opt signal (clock st) = false).
  { destruct signal as [s|]; [|reflexivity]. cbn [aborted_opt] in *.
    destruct (aborted s (clock st)) eqn:E; [|reflexivity].
    rewrite (@aborted_later s (clock st) (clock st + timerDelay delayTime)) in Hdue;
      [discriminate Hdue | pose proof (timerDelay_nonneg delayTime); lia | exact E]. }
  unfold loopBody, bind, checkCancelled. rewrite Hpre.
  unfold ret at 1, awaitDelay, afterIteration, iterationTrace.
  destruct signal as [s|].
  - cbn [aborted_opt] in *. unfold interruptedAt. rewrite Hdue, andb_false_r.
    cbn [setTimeout].
    assert (Hnone : match abortTime s with Some _ => None | None => None end
                    = @None Z) by (now destruct (abortTime s)).
    rewrite Hnone. cbn [addAbortListener fireTimer clock aborted_opt].
    rewrite Hdue. unfold ret, emit, when.
    destruct onProgress; cbn; repeat rewrite <- app_assoc; reflexivity.
  - cbn [setTimeout fireTimer clock aborted_opt].
    unfold ret, emit, when.
    destruct onProgress; cbn; repeat rewrite <- app_assoc; reflexivity.
Qed.

(** The check before the delay sees the cancellation: nothing happens. *)
Lemma loopBody_before (i : nat) (st : State) :
  aborted_opt signal (clock st) = true ->
  loopBody numbers delayTime onProgress signal i st = (Throw CancelledError, st).
Proof.
  intros H. unfold loopBody, bind, checkCancelled. now rewrite H.
Qed.

(** The abort task runs during the delay: the listeners run at that
    instant and the function fails there. *)
Lemma loopBody_during (i : nat) (st : State) (s : AbortSignal) (ta : Z) :
  signal = Some s ->
  abortTime s = Some ta ->
  aborted s (clock st) = false ->
  aborted s (clock st + timerDelay delayTime) = true ->
  loopBody numbers delayTime onProgress signal i st =
    (Throw CancelledError, dispatchAbort ta (suspended delayTime st)).
Proof.
  intros Hs Hta Hpre Hdue. unfold loopBody, bind, checkCancelled.
  rewrite Hs. cbn [aborted_opt]. rewrite Hpre. unfold ret at 1.
  unfold awaitDelay, interruptedAt. cbn [setTimeout].
  rewrite Hta, Hpre, Hdue. cbn [negb andb].
  rewrite <- suspended_eq. reflexivity.
Qed.

(** The signal is seen aborted at the latest when the timer is due: the
    iteration fails with the cancellation error, and what it adds to the
    trace holds no item action and no progress call. *)
Lemma loopBody_cancel (i : nat) (st : State) :
  aborted_opt signal (clock st + timerDelay delayTime) = true ->
  exists st' extra,
    loopBody numbers delayTime onProgress signal i st = (Throw CancelledError, st')
    /\ trace st' = trace st ++ extra
    /\ itemEvents extra = [].
Proof.
  intros Hdue.
  destruct (aborted_opt signal (clock st)) eqn:Hpre.
  - exists st, []. rewrite app_nil_r.
    split; [now apply loopBody_before | split; reflexivity].
  - destruct signal as [s|] eqn:Hs; [|discriminate]. cbn [aborted_opt] in *.
    destruct (abortTime s) as [ta|] eqn:Hta;
      [|unfold aborted in Hdue; rewrite Hta in Hdue; discriminate].
    eexists; eexists. split; [rewrite <- Hs; eapply loopBody_during; eauto|].
    rewrite dispatchAbort_trace. cbn [suspended trace listeners].
    rewrite <- app_assoc. split; [reflexivity|].
    rewrite itemEvents_app, itemEvents_clear. reflexivity.
Qed.

End Iteration.
(* ================================================================= *)
(** ** The loop *)

Section Loop.

Variable numbers : list (option JSValue).
Variable delayTime : Z.
Variable onProgress : option Callback.
Variable signal : option AbortSignal.

Lemma activeThrough_earlier (t1 t2 : Z) :
  (t1 <= t2)%Z -> activeThrough signal t2 -> activeThrough signal t1.
Proof.
  unfold activeThrough. destruct signal as [s|]; [|trivial].
  destruct (abortTime s); [lia|trivial].
Qed.

Lemma activeThrough_not_aborted (t : Z) :
  activeThrough signal t -> aborted_opt signal t = false.
Proof.
  unfold activeThrough, aborted_opt. destruct signal as [s|]; [|reflexivity].
  destruct (abortTime s) as [ta|] eqn:Hta.
  - intros H. now apply (@aborted_not_yet s ta).
  - intros _. unfold aborted. now rewrite Hta.
Qed.

Lemma neverCancelled_active (t : Z) :
  neverCancelled signal -> activeThrough signal t.
Proof.
  unfold neverCancelled, activeThrough. destruct signal as [s|]; [|trivial].
  now intros ->.
Qed.

(** While the signal stays active, the loop runs all its iterations. *)
Lemma forLoop_quiet (todo i : nat) (st : State) :
  activeThrough signal (clock st + Z.of_nat todo * timerDelay delayTime) ->
  forLoop numbers delayTime onProgress signal todo i st
  = (Normal tt, afterRun numbers delayTime onProgress signal todo i st).
Proof.
  revert i st. induction todo as [|todo IH]; intros i st Hq; [reflexivity|].
  cbn [forLoop afterRun]. unfold bind.
  rewrite loopBody_normal.
  - apply IH. cbn [afterIteration clock].
    eapply activeThrough_earlier; [|exact Hq]. lia.
  - apply activeThrough_not_aborted.
    eapply activeThrough_earlier; [|exact Hq].
    pose proof (timerDelay_nonneg delayTime). nia.
Qed.

(** The loop over [a + b] iterations is the loop over [a], then over [b]. *)
Lemma forLoop_split (a b i : nat) (st : State) :
  forLoop numbers delayTime onProgress signal (a + b) i st
  = match forLoop numbers delayTime onProgress signal a i st with
    | (Normal _, st') => forLoop numbers delayTime onProgress signal b (i + a) st'
    | (Throw e, st') => (Throw e, st')
    end.
Proof.
  revert i st. induction a as [|a IH]; intros i st.
  - cbn [forLoop Nat.add ret]. now rewrite Nat.add_0_r.
  - cbn [forLoop Nat.add]. unfold bind.
    destruct (loopBody numbers delayTime onProgress signal i st) as [[[]|e] st1];
      [|reflexivity].
    rewrite IH. now rewrite Nat.add_succ_r.
Qed.

Lemma afterRun_clock (todo i : nat) (st : State) :
  clock (afterRun numbers delayTime onProgress signal todo i st)
  = (clock st + Z.of_nat todo * timerDelay delayTime)%Z.
Proof.
  revert i st. induction todo as [|todo IH]; intros i st; cbn [afterRun].
  - cbn. lia.
  - rewrite IH. cbn [afterIteration clock]. lia.
Qed.

Lemma afterRun_nextTimer (todo i : nat) (st : State) :
  nextTimer (afterRun numbers delayTime onProgress signal todo i st)
  = nextTimer st + todo.
Proof.
  revert i st. induction todo as [|todo IH]; intros i st; cbn [afterRun].
  - now rewrite Nat.add_0_r.
  - rewrite IH. cbn [afterIteration nextTimer]. lia.
Qed.

Lemma afterRun_trace (todo i : nat) (st : State) :
  trace (afterRun numbers delayTime onProgress signal todo i st)
  = trace st ++ runTrace numbers delayTime onProgress signal todo (nextTimer st) i.
Proof.
  revert i st. induction todo as [|todo IH]; intros i st; cbn [afterRun runTrace].
  - now rewrite app_nil_r.
  - rewrite IH. cbn [afterIteration trace nextTimer]. now rewrite <- app_assoc.
Qed.

Lemma afterRun_pending (todo i : nat) (st : State) :
  pending st = [] ->
  pending (afterRun numbers delayTime onProgress signal todo i st) = [].
Proof.
  revert i st. induction todo as [|todo IH]; intros i st Hp; cbn [afterRun].
  - exact Hp.
  - apply IH. cbn [afterIteration pending]. rewrite Hp. apply remove_fresh.
Qed.

Lemma afterRun_listeners (todo i : nat) (st : State) :
  listeners (afterRun numbers delayTime onProgress signal todo i st)
  = listeners st ++ match signal with
                    | Some _ => seq (nextTimer st) todo
                    | None => []
                    end.
Proof.
  revert i st. induction todo as [|todo IH]; intros i st; cbn [afterRun].
  - destruct signal; cbn [seq]; now rewrite app_nil_r.
  - rewrite IH. cbn [afterIteration listeners nextTimer].
    destruct signal; cbn [seq]; [now rewrite <- app_assoc | reflexivity].
Qed.

End Loop.

(* ================================================================= *)
(** ** Arrays of numbers *)

Lemma numberArray_length (xs : list float) :
  Array_length (numberArray xs) = List.length xs.
Proof. unfold Array_length, numberArray. apply length_map. Qed.

Lemma numberArray_valid (xs : list float) :
  Array_some (fun item => negb (String.eqb (typeof item) "number")) (numberArray xs)
  = false.
Proof. induction xs as [|x xs IH]; [reflexivity | exact IH]. Qed.

Lemma numberArray_index (pre : list float) (x : float) (post : list float) :
  index (numberArray (pre ++ x :: post)) (List.length pre) = JNumber x.
Proof.
  unfold index, numberArray. rewrite map_app. cbn [map].
  rewrite nth_error_app2; rewrite length_map; [|lia].
  now rewrite Nat.sub_diag.
Qed.

(** An element that is not a number is what the validation looks for. *)
Lemma Array_some_spec (elems : list (option JSValue)) :
  Array_some (fun item => negb (String.eqb (typeof item) "number")) elems = true
  <-> exists v, In (Some v) elems /\ forall x, v <> JNumber x.
Proof.
  unfold Array_some. rewrite existsb_exists. split.
  - intros [[v|] [Hin Hv]]; [|discriminate]. exists v. split; [exact Hin|].
    intros x ->. discriminate.
  - intros [v [Hin Hv]]. exists (Some v). split; [exact Hin|].
    destruct v; try reflexivity. now elim (Hv x).
Qed.

Section RunTrace.

Variable numbers : list (option JSValue).
Variable delayTime : Z.
Variable onProgress : option Callback.
Variable signal : option AbortSignal.

Lemma timeouts_runTrace (todo id i : nat) :
  timeouts (runTrace numbers delayTime onProgress signal todo id i)
  = repeat delayTime todo.
Proof.
  revert id i. induction todo as [|todo IH]; intros id i; [reflexivity|].
  cbn [runTrace repeat]. rewrite timeouts_app, IH.
  unfold iterationTrace. destruct signal, onProgress; reflexivity.
Qed.

Lemma cleared_runTrace (todo id i : nat) :
  cleared (runTrace numbers delayTime onProgress signal todo id i) = [].
Proof.
  revert id i. induction todo as [|todo IH]; intros id i; [reflexivity|].
  cbn [runTrace]. rewrite cleared_app, IH.
  unfold iterationTrace. destruct signal, onProgress; reflexivity.
Qed.

(** The item actions and progress calls do not depend on the timer ids. *)
Lemma itemEvents_runTrace_ids (todo id id' i : nat) :
  itemEvents (runTrace numbers delayTime onProgress signal todo id i)
  = itemEvents (runTrace numbers delayTime onProgress signal todo id' i).
Proof.
  revert id id' i. induction todo as [|todo IH]; intros id id' i; [reflexivity|].
  cbn [runTrace]. rewrite !itemEvents_app, (IH (S id) (S id')).
  f_equal. unfold iterationTrace. destruct signal, onProgress; reflexivity.
Qed.

End RunTrace.

(** On an array of numbers, complete iterations leave the expected item
    actions and progress calls. *)
Lemma itemEvents_runTrace_numbers (pre xs post : list float) (d : Z)
      (cb : option Callback) (sg : option AbortSignal) (id : nat) :
  itemEvents (runTrace (numberArray (pre ++ xs ++ post)) d cb sg
                       (List.length xs) id (List.length pre))
  = expectedItems (supplied cb) (List.length (pre ++ xs ++ post))
                  (S (List.length pre)) xs.
Proof.
  revert pre id. induction xs as [|x xs IH]; intros pre id; [reflexivity|].
  cbn [List.length runTrace expectedItems]. rewrite itemEvents_app.
  specialize (IH (pre ++ [x]) (S id)).
  rewrite <- app_assoc, length_app in IH. cbn [app List.length] in IH.
  rewrite Nat.add_1_r in IH.
  change ((x :: xs) ++ post) with (x :: xs ++ post).
  rewrite IH. clear IH.
  unfold iterationTrace.
  rewrite numberArray_index, numberArray_length, Nat.add_1_r.
  destruct sg, cb; reflexivity.
Qed.

Lemma emissions_expectedItems (b : bool) (total k : nat) (xs : list float) :
  emissions (expectedItems b total k xs) = map JNumber xs.
Proof.
  revert k. induction xs as [|x xs IH]; intros k; [reflexivity|].
  cbn [expectedItems map].
  change (emissions (?e :: ?l)) with (emissions [e] ++ emissions l).
  rewrite emissions_app, IH. destruct b; reflexivity.
Qed.

Lemma progressCalls_expectedItems (b : bool) (total k : nat) (xs : list float) :
  progressCalls (expectedItems b total k xs)
  = if b then map (fun j => (j, total)) (seq k (List.length xs)) else [].
Proof.
  revert k. induction xs as [|x xs IH]; intros k; [now destruct b|].
  cbn [expectedItems List.length seq map].
  change (progressCalls (?e :: ?l)) with (progressCalls [e] ++ progressCalls l).
  rewrite progressCalls_app, IH. destruct b; reflexivity.
Qed.

(* ================================================================= *)
(** ** The whole call *)

(** Past the validation and the empty-array return, the call is the loop. *)
Lemma process_valid (elems : list (option JSValue)) (options : Options) (st : State) :
  Array_some (fun item => negb (String.eqb (typeof item) "number")) elems = false ->
  elems <> [] ->
  processWithDelay (JArray elems) options st
  = forLoop elems (nullish (delayTime options) 1000%Z) (onProgress options)
            (signal options) (List.length elems) 0 st.
Proof.
  intros Hv Hne. unfold processWithDelay. cbn [Array_isArray negb slots].
  rewrite Hv. destruct elems as [|e elems]; [contradiction|reflexivity].
Qed.

(** Without cancellation, a valid call runs every iteration. *)
Lemma process_quiet (elems : list (option JSValue)) (options : Options) (st : State) :
  Array_some (fun item => negb (String.eqb (typeof item) "number")) elems = false ->
  elems <> [] ->
  neverCancelled (signal options) ->
  processWithDelay (JArray elems) options st
  = (Normal tt,
     afterRun elems (nullish (delayTime options) 1000%Z) (onProgress options)
              (signal options) (List.length elems) 0 st).
Proof.
  intros Hv Hne Hq. rewrite process_valid by assumption.
  apply forLoop_quiet. now apply neverCancelled_active.
Qed.

Lemma numberArray_nonempty (xs : list float) : xs <> [] -> numberArray xs <> [].
Proof. destruct xs; [contradiction|discriminate]. Qed.

(** C1.  For every non-empty array of numbers and no cancellation (no
    signal, or a signal that is never aborted), the call is fulfilled;
    the console receives exactly the items, in index order; [onProgress],
    when supplied, is called exactly once per item with [(1,total)],
    [(2,total)], ..., [(total,total)] (and never when it is not supplied);
    and each progress call comes right after the action of its item. *)
Theorem process_emits_every_item
        (xs : list float) (options : Options) (now : Z) (timerSeq : nat) :
  xs <> [] ->
  neverCancelled (signal options) ->
  let r := processWithDelay (JArray (numberArray xs)) options (hostState now timerSeq) in
  let total := List.length xs in
  fst r = Normal tt
  /\ emissions (trace (snd r)) = map JNumber xs
  /\ progressCalls (trace (snd r))
     = (if supplied (onProgress options)
        then map (fun k => (k, total)) (seq 1 total) else [])
  /\ itemEvents (trace (snd r))
     = expectedItems (supplied (onProgress options)) total 1 xs.
Proof.
  intros Hne Hq r total. subst r.
  rewrite process_quiet;
    [|apply numberArray_valid|now apply numberArray_nonempty|exact Hq].
  cbn [fst snd]. rewrite afterRun_trace. cbn [hostState trace nextTimer app].
  assert (Hitems :
    itemEvents (runTrace (numberArray xs) (nullish (delayTime options) 1000%Z)
                         (onProgress options) (signal options)
                         (List.length (numberArray xs)) timerSeq 0)
    = expectedItems (supplied (onProgress options)) total 1 xs).
  { pose proof (itemEvents_runTrace_numbers [] xs []
                  (nullish (delayTime options) 1000%Z) (onProgress options)
                  (signal options) timerSeq) as H.
    cbn [app List.length] in H. rewrite app_nil_r in H.
    fold (Array_length (numberArray xs)). rewrite numberArray_length. exact H. }
  split; [reflexivity|].
  split; [|split]; [| |exact Hitems].
  - rewrite <- emissions_itemEvents, Hitems. apply emissions_expectedItems.
  - rewrite <- progressCalls_itemEvents, Hitems. apply progressCalls_expectedItems.
Qed.

(** The run of the first three tests of the harness, shortened: three
    items, a progress callback, no signal. *)
Lemma process_emits_every_item_witness :
  [1%float; 2%float; 3%float] <> []
  /\ neverCancelled (signal (mkOptions (Some 500%Z) (Some callerCallback) None))
  /\ emissions (trace (snd (processWithDelay
                              (JArray (numberArray [1%float; 2%float; 3%float]))
                              (mkOptions (Some 500%Z) (Some callerCallback) None)
                              (hostState 0 0))))
     = [JNumber 1; JNumber 2; JNumber 3].
Proof.
  split; [discriminate|]. split; [exact I|].
  exact (proj1 (proj2 (@process_emits_every_item
                         [1%float; 2%float; 3%float]
                         (mkOptions (Some 500%Z) (Some callerCallback) None) 0%Z 0
                         ltac:(discriminate) I))).
Defined.

Lemma error_kinds_distinct :
  InvalidInputKind <> InvalidElementKind
  /\ InvalidInputKind <> CancelledKind
  /\ InvalidElementKind <> CancelledKind.
Proof. repeat split; discriminate. Qed.

(** C3.  A [numbers] argument that is not an array is rejected with the
    invalid-input error; an array holding an element that is not a number
    is rejected with the invalid-element error.  In both cases the state
    of the host is left as it was: no timer is set (so no delay), nothing
    is written to the console and [onProgress] is not called.  The two
    errors are different ones. *)
Theorem invalid_arguments_rejected
        (numbers : JSValue) (options : Options) (st : State) :
  (Array_isArray numbers = false ->
   processWithDelay numbers options st = (Throw InvalidInputKind, st))
  /\ (forall elems v,
        numbers = JArray elems ->
        In (Some v) elems ->
        (forall x, v <> JNumber x) ->
        processWithDelay numbers options st = (Throw InvalidElementKind, st))
  /\ InvalidInputKind <> InvalidElementKind.
Proof.
  split; [|split].
  - intros H. unfold processWithDelay. now rewrite H.
  - intros elems v -> Hin Hv. unfold processWithDelay.
    cbn [Array_isArray negb slots].
    replace (Array_some _ elems) with true; [reflexivity|].
    symmetry. apply Array_some_spec. now exists v.
  - apply error_kinds_distinct.
Qed.

(** Test 5 of the harness: [processWithDelay("not an array")] and
    [processWithDelay([1, "two", 3])]. *)
Lemma invalid_arguments_rejected_witness :
  (Array_isArray (JString "not an array") = false
   /\ processWithDelay (JString "not an array") noOptions (hostState 0 0)
      = (Throw InvalidInputKind, hostState 0 0))
  /\ (In (Some (JString "two"))
         [Some (JNumber 1); Some (JString "two"); Some (JNumber 3)]
      /\ (forall x, JString "two" <> JNumber x)
      /\ processWithDelay
           (JArray [Some (JNumber 1); Some (JString "two"); Some (JNumber 3)])
           noOptions (hostState 0 0)
         = (Throw InvalidElementKind, hostState 0 0)).
Proof.
  split.
  - split; [reflexivity|].
    exact (proj1 (invalid_arguments_rejected (JString "not an array") noOptions
                    (hostState 0 0)) eq_refl).
  - assert (Hin : In (Some (JString "two"))
                     [Some (JNumber 1); Some (JString "two"); Some (JNumber 3)])
      by (right; left; reflexivity).
    assert (Hv : forall x, JString "two" <> JNumber x) by (intros x; discriminate).
    split; [exact Hin|]. split; [exact Hv|].
    exact (proj1 (proj2 (invalid_arguments_rejected
                           (JArray [Some (JNumber 1); Some (JString "two");
                                    Some (JNumber 3)])
                           noOptions (hostState 0 0)))
                 _ _ eq_refl Hin Hv).
Defined.

(** C4.  On the empty array the call is fulfilled at once and leaves the
    host as it was, whatever the options ([delayTime], [onProgress],
    signal, aborted or not) and whatever the state of the host: no timer
    is set, nothing is written, [onProgress] is not called. *)
Theorem empty_array_completes (options : Options) (st : State) :
  let r := processWithDelay (JArray []) options st in
  fst r = Normal tt
  /\ snd r = st
  /\ timeouts (trace (snd r)) = timeouts (trace st)
  /\ emissions (trace (snd r)) = emissions (trace st)
  /\ progressCalls (trace (snd r)) = progressCalls (trace st)
  /\ clock (snd r) = clock st.
Proof.
  intros r.
  assert (Hr : r = (Normal tt, st)).
  { subst r. unfold processWithDelay.
    cbn [Array_isArray negb slots Array_some existsb Array_length List.length Nat.eqb].
    reflexivity. }
  rewrite Hr. cbn [fst snd]. repeat split.
Qed.

(** A valid, non-empty call with a signal already aborted fails at the
    first check of the first iteration. *)
Lemma process_precancelled
      (xs : list float) (options : Options) (s : AbortSignal) (st : State) :
  xs <> [] ->
  signal options = Some s ->
  aborted s (clock st) = true ->
  processWithDelay (JArray (numberArray xs)) options st = (Throw CancelledError, st).
Proof.
  intros Hne Hs Hab.
  rewrite process_valid;
    [|apply numberArray_valid|now apply numberArray_nonempty].
  destruct xs as [|x xs]; [contradiction|].
  cbn [numberArray map List.length forLoop]. unfold bind.
  rewrite loopBody_before; [reflexivity|].
  rewrite Hs. exact Hab.
Qed.

(** C5.  For every non-empty array of numbers and a signal that is already
    aborted when the call is made, the call is rejected with the
    cancellation error and leaves the host as it was: no timer is set,
    nothing is written, [onProgress] is not called. *)
Theorem cancelled_before_call
        (xs : list float) (options : Options) (s : AbortSignal) (st : State) :
  xs <> [] ->
  signal options = Some s ->
  aborted s (clock st) = true ->
  let r := processWithDelay (JArray (numberArray xs)) options st in
  fst r = Throw CancelledKind
  /\ snd r = st
  /\ timeouts (trace (snd r)) = timeouts (trace st)
  /\ emissions (trace (snd r)) = emissions (trace st)
  /\ progressCalls (trace (snd r)) = progressCalls (trace st)
  /\ clock (snd r) = clock st.
Proof.
  intros Hne Hs Hab r. subst r.
  rewrite (@process_precancelled xs options s st Hne Hs Hab).
  cbn [fst snd]. repeat split.
Qed.

(** [controller.abort()] at instant 5, the call on [[1, 2, 3]] at instant 10. *)
Lemma cancelled_before_call_witness :
  [1%float; 2%float; 3%float] <> []
  /\ signal (mkOptions None (Some callerCallback) (Some (mkSignal (Some 5%Z) true)))
     = Some (mkSignal (Some 5%Z) true)
  /\ aborted (mkSignal (Some 5%Z) true) (clock (hostState 10 0)) = true
  /\ fst (processWithDelay (JArray (numberArray [1%float; 2%float; 3%float]))
                           (mkOptions None (Some callerCallback)
                                      (Some (mkSignal (Some 5%Z) true)))
                           (hostState 10 0))
     = Throw CancelledKind.
Proof.
  split; [discriminate|]. split; [reflexivity|]. split; [reflexivity|].
  exact (proj1 (@cancelled_before_call [1%float; 2%float; 3%float]
                  (mkOptions None (Some callerCallback)
                             (Some (mkSignal (Some 5%Z) true)))
                  (mkSignal (Some 5%Z) true) (hostState 10 0)
                  ltac:(discriminate) eq_refl eq_refl)).
Defined.

(** C10.  The empty-array return comes before the first cancellation
    check: with a signal that is already aborted when the call is made,
    the call on the empty array is fulfilled, not rejected, and leaves the
    host as it was, while the same call on any non-empty array of numbers
    is rejected with the cancellation error. *)
Theorem empty_array_ignores_cancellation
        (options : Options) (s : AbortSignal) (st : State) :
  signal options = Some s ->
  aborted s (clock st) = true ->
  processWithDelay (JArray []) options st = (Normal tt, st)
  /\ fst (processWithDelay (JArray []) options st) <> Throw CancelledKind
  /\ forall xs, xs <> [] ->
       fst (processWithDelay (JArray (numberArray xs)) options st)
       = Throw CancelledKind.
Proof.
  intros Hs Hab. split; [reflexivity|]. split; [discriminate|].
  intros xs Hne. now rewrite (@process_precancelled xs options s st Hne Hs Hab).
Qed.

Lemma empty_array_ignores_cancellation_witness :
  signal (mkOptions None None (Some (mkSignal (Some 5%Z) true)))
  = Some (mkSignal (Some 5%Z) true)
  /\ aborted (mkSignal (Some 5%Z) true) (clock (hostState 10 0)) = true
  /\ processWithDelay (JArray [])
                      (mkOptions None None (Some (mkSignal (Some 5%Z) true)))
                      (hostState 10 0)
     = (Normal tt, hostState 10 0).
Proof.
  split; [reflexivity|]. split; [reflexivity|].
  exact (proj1 (@empty_array_ignores_cancellation
                  (mkOptions None None (Some (mkSignal (Some 5%Z) true)))
                  (mkSignal (Some 5%Z) true) (hostState 10 0) eq_refl eq_refl)).
Defined.

(** C7.  The delay in force is [options.delayTime], and 1000 when that is
    not supplied.  In a run of [n] items without cancellation the call
    sets exactly [n] timers, each with that delay, one at the start of
    every iteration, the first included: the trace is the sequence, item
    after item, of [setTimeout], then (with a signal) [addEventListener],
    then the action on the item, then the progress call.  The run leaves
    no timer pending, and when the delay is one the host keeps as asked
    it ends [n] delays after it started. *)
Theorem delay_before_every_item
        (xs : list float) (options : Options) (now : Z) (timerSeq : nat) :
  xs <> [] ->
  neverCancelled (signal options) ->
  let d := match delayTime options with Some d => d | None => 1000%Z end in
  let n := List.length xs in
  let r := processWithDelay (JArray (numberArray xs)) options (hostState now timerSeq) in
  fst r = Normal tt
  /\ trace (snd r)
     = runTrace (numberArray xs) d (onProgress options) (signal options) n timerSeq 0
  /\ timeouts (trace (snd r)) = repeat d n
  /\ (honoured d -> clock (snd r) = (now + Z.of_nat n * d)%Z)
  /\ pending (snd r) = [].
Proof.
  intros Hne Hq d n r. subst r.
  rewrite process_quiet;
    [|apply numberArray_valid|now apply numberArray_nonempty|exact Hq].
  cbn [fst snd]. fold (Array_length (numberArray xs)).
  rewrite numberArray_length. fold n.
  change (nullish (delayTime options) 1000%Z) with d.
  split; [reflexivity|].
  rewrite afterRun_trace, afterRun_clock, afterRun_pending by reflexivity.
  cbn [hostState trace nextTimer clock app].
  rewrite timeouts_runTrace.
  split; [reflexivity|]. split; [reflexivity|]. split; [|reflexivity].
  intros Hd. now rewrite (timerDelay_honoured Hd).
Qed.

(** Test 1 of the harness, shortened: no options, so one second per item. *)
Lemma delay_before_every_item_witness :
  [1%float; 2%float] <> []
  /\ neverCancelled (signal noOptions)
  /\ honoured 1000
  /\ trace (snd (processWithDelay (JArray (numberArray [1%float; 2%float]))
                                  noOptions (hostState 0 0)))
     = [SetTimeout 0 1000; ConsoleLog (JNumber 1);
        SetTimeout 1 1000; ConsoleLog (JNumber 2)]
  /\ clock (snd (processWithDelay (JArray (numberArray [1%float; 2%float]))
                                  noOptions (hostState 0 0)))
     = 2000%Z.
Proof.
  assert (Hd : honoured 1000) by (unfold honoured; lia).
  split; [discriminate|]. split; [exact I|]. split; [exact Hd|].
  pose proof (@delay_before_every_item [1%float; 2%float] noOptions 0%Z 0
                ltac:(discriminate) I) as H.
  split; [exact (proj1 (proj2 H)) | exact (proj1 (proj2 (proj2 (proj2 H))) Hd)].
Defined.

(* ================================================================= *)
(** ** Cancellation during a delay *)

Lemma cleared_clear (ids : list nat) : cleared (map ClearTimeout ids) = ids.
Proof. induction ids as [|id ids IH]; [reflexivity|]. cbn. f_equal. exact IH. Qed.

Lemma timeouts_clear (ids : list nat) : timeouts (map ClearTimeout ids) = [].
Proof. induction ids as [|id ids IH]; [reflexivity | exact IH]. Qed.

(** The abort comes during the delay of iteration [i + j]: the [j]
    iterations before it are complete, and the function fails at the
    instant of the abort, in the state the listeners leave. *)
Lemma forLoop_interrupted
      (numbers : list (option JSValue)) (d : Z) (cb : option Callback)
      (s : AbortSignal) (ta : Z) (j rest i : nat) (st : State) :
  abortTime s = Some ta ->
  aborted s (clock st + Z.of_nat j * timerDelay d) = false ->
  aborted s (clock st + Z.of_nat j * timerDelay d + timerDelay d) = true ->
  forLoop numbers d cb (Some s) (j + S rest) i st
  = (Throw CancelledError,
     dispatchAbort ta (suspended d (afterRun numbers d cb (Some s) j i st))).
Proof.
  intros Hta Hlo Hhi.
  assert (Hfirst : forLoop numbers d cb (Some s) j i st
                   = (Normal tt, afterRun numbers d cb (Some s) j i st)).
  { clear Hhi. revert i st Hlo. induction j as [|j IH]; intros i st Hlo;
      [reflexivity|].
    cbn [forLoop afterRun]. unfold bind.
    assert (Hstep : aborted s (clock st + timerDelay d) = false).
    { destruct (aborted s (clock st + timerDelay d)) eqn:E; [|reflexivity].
      rewrite (@aborted_later s (clock st + timerDelay d)
                 (clock st + Z.of_nat (S j) * timerDelay d)) in Hlo;
        [discriminate Hlo | pose proof (timerDelay_nonneg d); nia | exact E]. }
    rewrite loopBody_normal by exact Hstep.
    apply IH. cbn [afterIteration clock].
    replace (clock st + timerDelay d + Z.of_nat j * timerDelay d)%Z
      with (clock st + Z.of_nat (S j) * timerDelay d)%Z by lia.
    exact Hlo. }
  rewrite forLoop_split, Hfirst. cbn [forLoop]. unfold bind.
  rewrite (@loopBody_during numbers d cb (Some s) (i + j) _ s ta);
    [reflexivity|reflexivity|exact Hta| |]; now rewrite afterRun_clock.
Qed.

(** What the interrupted state holds. *)
Lemma interrupted_state
      (numbers : list (option JSValue)) (d : Z) (cb : option Callback)
      (s : AbortSignal) (ta : Z) (j i : nat) (now : Z) (timerSeq : nat) :
  let st := dispatchAbort ta
              (suspended d (afterRun numbers d cb (Some s) j i (hostState now timerSeq))) in
  clock st = ta
  /\ pending st = []
  /\ itemEvents (trace st) = itemEvents (runTrace numbers d cb (Some s) j timerSeq i)
  /\ cleared (trace st) = seq timerSeq (S j)
  /\ timeouts (trace st) = repeat d (S j).
Proof.
  intros st. subst st. split; [reflexivity|].
  split; [|split; [|split]].
  - unfold dispatchAbort. cbn [pending]. rewrite clearAll_pending.
    cbn [suspended pending listeners].
    rewrite afterRun_pending by reflexivity. cbn [app].
    apply removeAll_single, in_or_app. right. now left.
  - rewrite dispatchAbort_trace. cbn [suspended trace listeners].
    rewrite afterRun_trace. cbn [hostState trace nextTimer app].
    rewrite !itemEvents_app, itemEvents_clear. cbn [itemEvents filter isItemEvent].
    now rewrite !app_nil_r.
  - rewrite dispatchAbort_trace. cbn [suspended trace listeners].
    rewrite afterRun_trace, afterRun_listeners, afterRun_nextTimer.
    cbn [hostState trace nextTimer listeners app].
    rewrite !cleared_app, cleared_clear, cleared_runTrace. cbn [cleared flat_map app].
    now rewrite seq_S.
  - rewrite dispatchAbort_trace. cbn [suspended trace listeners].
    rewrite afterRun_trace. cbn [hostState trace nextTimer app].
    rewrite !timeouts_app, timeouts_clear, timeouts_runTrace.
    cbn [timeouts flat_map app]. rewrite app_nil_r.
    now rewrite <- repeat_cons.
Qed.

(** C2.  For every array of numbers, a delay the host keeps as asked, and
    a signal aborted during the delay of item [k] (counted from 1: after
    that delay has started and before its timer is due), the call is
    rejected with the cancellation error; the console has received items
    [1..k-1] only, and [onProgress], when supplied, has been called for
    items [1..k-1] only; the call fails at the instant of the abort,
    before the delay of item [k] has elapsed; the timer of item [k] has
    been cleared and no timer is left pending. *)
Theorem cancelled_during_delay
        (xs : list float) (options : Options) (s : AbortSignal) (ta : Z)
        (k : nat) (now : Z) (timerSeq : nat) :
  signal options = Some s ->
  abortTime s = Some ta ->
  1 <= k <= List.length xs ->
  let d := nullish (delayTime options) 1000%Z in
  honoured d ->
  let waitStart := (now + Z.of_nat (k - 1) * d)%Z in
  (waitStart < ta < waitStart + d)%Z ->
  let r := processWithDelay (JArray (numberArray xs)) options (hostState now timerSeq) in
  let total := List.length xs in
  fst r = Throw CancelledKind
  /\ emissions (trace (snd r)) = map JNumber (firstn (k - 1) xs)
  /\ progressCalls (trace (snd r))
     = (if supplied (onProgress options)
        then map (fun j => (j, total)) (seq 1 (k - 1)) else [])
  /\ itemEvents (trace (snd r))
     = expectedItems (supplied (onProgress options)) total 1 (firstn (k - 1) xs)
  /\ clock (snd r) = ta
  /\ (ta < waitStart + d)%Z
  /\ In (timerSeq + (k - 1)) (cleared (trace (snd r)))
  /\ pending (snd r) = []
  /\ timeouts (trace (snd r)) = repeat d k.
Proof.
  intros Hs Hta Hk d Hd waitStart Hwait r total.
  assert (Hne : xs <> []) by (destruct xs; [cbn in Hk; lia | discriminate]).
  assert (Hrun : r = (Throw CancelledError,
                      dispatchAbort ta
                        (suspended d (afterRun (numberArray xs) d (onProgress options)
                                               (Some s) (k - 1) 0
                                               (hostState now timerSeq))))).
  { subst r. rewrite process_valid;
      [|apply numberArray_valid|now apply numberArray_nonempty].
    fold (Array_length (numberArray xs)). rewrite numberArray_length, Hs.
    change (nullish (delayTime options) 1000%Z) with d.
    replace (List.length xs) with ((k - 1) + S (List.length xs - k)) by lia.
    apply forLoop_interrupted; [exact Hta| |];
      rewrite (timerDelay_honoured Hd); cbn [hostState clock]; fold waitStart.
    - apply (@aborted_not_yet s ta); [exact Hta | lia].
    - apply (@aborted_before s ta); [exact Hta | lia]. }
  rewrite Hrun. clear Hrun r. cbn [fst snd].
  pose proof (@interrupted_state (numberArray xs) d (onProgress options) s ta
                (k - 1) 0 now timerSeq) as H.
  cbv zeta in H. destruct H as (Hclock & Hpend & Hitems & Hcleared & Htimeouts).
  assert (Hexp : itemEvents (trace (dispatchAbort ta
                   (suspended d (afterRun (numberArray xs) d (onProgress options)
                                          (Some s) (k - 1) 0 (hostState now timerSeq)))))
                 = expectedItems (supplied (onProgress options)) total 1
                                 (firstn (k - 1) xs)).
  { rewrite Hitems.
    pose proof (itemEvents_runTrace_numbers [] (firstn (k - 1) xs) (skipn (k - 1) xs)
                  d (onProgress options) (Some s) timerSeq) as H.
    cbn [app List.length] in H. rewrite firstn_skipn in H.
    rewrite length_firstn, Nat.min_l in H by lia. exact H. }
  split; [reflexivity|].
  split; [rewrite <- emissions_itemEvents, Hexp; apply emissions_expectedItems|].
  split.
  { rewrite <- progressCalls_itemEvents, Hexp, progressCalls_expectedItems.
    rewrite length_firstn, Nat.min_l by lia. reflexivity. }
  split; [exact Hexp|].
  split; [exact Hclock|].
  split; [lia|].
  split; [rewrite Hcleared; apply in_seq; lia|].
  split; [exact Hpend|].
  rewrite Htimeouts. f_equal. lia.
Qed.

(** Test 6 of the harness: five items, one second each, a progress
    callback, [controller.abort()] after 1200 ms, during the delay of the
    second item. *)
Lemma cancelled_during_delay_witness :
  let options := mkOptions None (Some callerCallback) (Some (mkSignal (Some 1200%Z) true)) in
  let r := processWithDelay
             (JArray (numberArray [1%float; 2%float; 3%float; 4%float; 5%float]))
             options (hostState 0 0) in
  signal options = Some (mkSignal (Some 1200%Z) true)
  /\ abortTime (mkSignal (Some 1200%Z) true) = Some 1200%Z
  /\ 1 <= 2 <= List.length [1%float; 2%float; 3%float; 4%float; 5%float]
  /\ honoured (nullish (delayTime options) 1000%Z)
  /\ (0 + Z.of_nat (2 - 1) * 1000 < 1200 < 0 + Z.of_nat (2 - 1) * 1000 + 1000)%Z
  /\ fst r = Throw CancelledKind
  /\ emissions (trace (snd r)) = [JNumber 1]
  /\ progressCalls (trace (snd r)) = [(1, 5)]
  /\ clock (snd r) = 1200%Z.
Proof.
  intros options r.
  assert (Hk : 1 <= 2 <= List.length [1%float; 2%float; 3%float; 4%float; 5%float])
    by (cbn; lia).
  assert (Hd : honoured (nullish (delayTime options) 1000%Z))
    by (unfold honoured; cbn; lia).
  assert (Hw : (0 + Z.of_nat (2 - 1) * 1000 < 1200
                < 0 + Z.of_nat (2 - 1) * 1000 + 1000)%Z)
    by (cbn; lia).
  pose proof (@cancelled_during_delay
                [1%float; 2%float; 3%float; 4%float; 5%float] options
                (mkSignal (Some 1200%Z) true) 1200%Z 2 0%Z 0
                eq_refl eq_refl Hk Hd Hw) as H.
  split; [reflexivity|]. split; [reflexivity|]. split; [exact Hk|].
  split; [exact Hd|]. split; [exact Hw|].
  split; [exact (proj1 H)|].
  split; [exact (proj1 (proj2 H))|].
  split; [exact (proj1 (proj2 (proj2 H)))|].
  exact (proj1 (proj2 (proj2 (proj2 (proj2 H))))).
Defined.

(* ================================================================= *)
(** ** Every run of the loop *)

Lemma aborted_opt_earlier (sg : option AbortSignal) (t1 t2 : Z) :
  (t1 <= t2)%Z -> aborted_opt sg t2 = false -> aborted_opt sg t1 = false.
Proof.
  destruct sg as [s|]; [|reflexivity]. cbn [aborted_opt]. intros Hle H.
  destruct (aborted s t1) eqn:E; [|reflexivity].
  now rewrite (@aborted_later s t1 t2 Hle E) in H.
Qed.

(** The loop only adds to the trace. *)
Lemma forLoop_extends
      (numbers : list (option JSValue)) (d : Z) (cb : option Callback)
      (sg : option AbortSignal) (todo i : nat) (st : State) :
  exists later, trace (snd (forLoop numbers d cb sg todo i st)) = trace st ++ later.
Proof.
  revert i st. induction todo as [|todo IH]; intros i st.
  - exists []. cbn [forLoop ret snd]. now rewrite app_nil_r.
  - cbn [forLoop]. unfold bind.
    destruct (aborted_opt sg (clock st + timerDelay d)) eqn:Hdue.
    + destruct (@loopBody_cancel numbers d cb sg i st Hdue)
        as (st' & extra & Hbody & Htrace & _).
      rewrite Hbody. exists extra. exact Htrace.
    + rewrite (@loopBody_normal numbers d cb sg i st Hdue).
      destruct (IH (S i) (afterIteration numbers d cb sg i st)) as (later & Hlater).
      exists (iterationTrace numbers d cb sg (nextTimer st) i ++ later).
      rewrite Hlater. cbn [afterIteration trace]. now rewrite app_assoc.
Qed.

(** The signal is not seen aborted when the last timer is due: the loop
    runs all its iterations. *)
Lemma forLoop_runs
      (numbers : list (option JSValue)) (d : Z) (cb : option Callback)
      (sg : option AbortSignal) (todo i : nat) (st : State) :
  aborted_opt sg (clock st + Z.of_nat todo * timerDelay d) = false ->
  forLoop numbers d cb sg todo i st
  = (Normal tt, afterRun numbers d cb sg todo i st).
Proof.
  revert i st. induction todo as [|todo IH]; intros i st Hq; [reflexivity|].
  cbn [forLoop afterRun]. unfold bind.
  rewrite loopBody_normal.
  - apply IH. cbn [afterIteration clock].
    replace (clock st + timerDelay d + Z.of_nat todo * timerDelay d)%Z
      with (clock st + Z.of_nat (S todo) * timerDelay d)%Z by lia.
    exact Hq.
  - apply (@aborted_opt_earlier sg _ (clock st + Z.of_nat (S todo) * timerDelay d));
      [|exact Hq].
    pose proof (timerDelay_nonneg d). pose proof (Nat2Z.is_nonneg todo).
    rewrite Nat2Z.inj_succ. nia.
Qed.

(** The signal is seen aborted when the last timer is due, or before: the
    loop fails with the cancellation error. *)
Lemma forLoop_rejected
      (numbers : list (option JSValue)) (d : Z) (cb : option Callback)
      (sg : option AbortSignal) (todo i : nat) (st : State) :
  aborted_opt sg (clock st + Z.of_nat (S todo) * timerDelay d) = true ->
  fst (forLoop numbers d cb sg (S todo) i st) = Throw CancelledError.
Proof.
  revert i st. induction todo as [|todo IH]; intros i st Hq.
  - cbn [forLoop]. unfold bind.
    replace (clock st + Z.of_nat 1 * timerDelay d)%Z
      with (clock st + timerDelay d)%Z in Hq by lia.
    destruct (@loopBody_cancel numbers d cb sg i st Hq)
      as (st' & extra & Hbody & _). now rewrite Hbody.
  - change (forLoop numbers d cb sg (S (S todo)) i st)
      with ((loopBody numbers d cb sg i ;; forLoop numbers d cb sg (S todo) (S i)) st).
    unfold bind.
    destruct (aborted_opt sg (clock st + timerDelay d)) eqn:Hdue.
    + destruct (@loopBody_cancel numbers d cb sg i st Hdue)
        as (st' & extra & Hbody & _). now rewrite Hbody.
    + rewrite (@loopBody_normal numbers d cb sg i st Hdue).
      apply IH. cbn [afterIteration clock].
      replace (clock st + timerDelay d + Z.of_nat (S todo) * timerDelay d)%Z
        with (clock st + Z.of_nat (S (S todo)) * timerDelay d)%Z by lia.
      exact Hq.
Qed.

(** The loop is fulfilled or fails with the cancellation error. *)
Lemma forLoop_outcome
      (numbers : list (option JSValue)) (d : Z) (cb : option Callback)
      (sg : option AbortSignal) (todo i : nat) (st : State) :
  fst (forLoop numbers d cb sg todo i st) = Normal tt
  \/ fst (forLoop numbers d cb sg todo i st) = Throw CancelledError.
Proof.
  destruct (aborted_opt sg (clock st + Z.of_nat todo * timerDelay d)) eqn:Hq.
  - destruct todo as [|todo]; [now left|]. right. now apply forLoop_rejected.
  - left. now rewrite forLoop_runs.
Qed.

(** The item actions and progress calls of the first [j] iterations over
    an array of numbers. *)
Lemma itemEvents_runTrace_prefix
      (xs : list float) (d : Z) (cb : option Callback) (sg : option AbortSignal)
      (j id : nat) :
  j <= List.length xs ->
  itemEvents (runTrace (numberArray xs) d cb sg j id 0)
  = expectedItems (supplied cb) (List.length xs) 1 (firstn j xs).
Proof.
  intros Hle.
  pose proof (itemEvents_runTrace_numbers [] (firstn j xs) (skipn j xs)
                d cb sg id) as H.
  cbn [app List.length] in H. rewrite firstn_skipn in H.
  rewrite length_firstn, Nat.min_l in H by exact Hle. exact H.
Qed.

(* ================================================================= *)
(** ** Two calls with the same arguments *)

(** C8.  Without cancellation, two calls with the same arguments, made at
    any two instants on hosts whose timer ids may differ, have the same
    outcome, write the same values to the console in the same order, make
    the same progress calls in the same order, set timers with the same
    delays and take the same time.  This holds for every [numbers]
    argument, valid or not. *)
Theorem independent_calls_agree
        (numbers : JSValue) (options : Options)
        (now1 now2 : Z) (timerSeq1 timerSeq2 : nat) :
  neverCancelled (signal options) ->
  let r1 := processWithDelay numbers options (hostState now1 timerSeq1) in
  let r2 := processWithDelay numbers options (hostState now2 timerSeq2) in
  fst r1 = fst r2
  /\ emissions (trace (snd r1)) = emissions (trace (snd r2))
  /\ progressCalls (trace (snd r1)) = progressCalls (trace (snd r2))
  /\ itemEvents (trace (snd r1)) = itemEvents (trace (snd r2))
  /\ timeouts (trace (snd r1)) = timeouts (trace (snd r2))
  /\ (clock (snd r1) - now1 = clock (snd r2) - now2)%Z.
Proof.
  intros Hq r1 r2. subst r1 r2.
  destruct numbers as [| | b | x | z | str | | elems];
    try (cbn; repeat split; lia).
  destruct (Array_some (fun item => negb (String.eqb (typeof item) "number")) elems)
    eqn:Hv.
  - unfold processWithDelay. cbn [Array_isArray negb slots]. rewrite Hv.
    cbn. repeat split; lia.
  - destruct elems as [|e elems]; [cbn; repeat split; lia|].
    rewrite !process_quiet by (assumption || discriminate).
    cbn [fst snd]. rewrite !afterRun_trace, !afterRun_clock.
    cbn [hostState trace nextTimer clock app].
    assert (Hitems :
      itemEvents (runTrace (e :: elems) (nullish (delayTime options) 1000%Z)
                           (onProgress options) (signal options)
                           (List.length (e :: elems)) timerSeq1 0)
      = itemEvents (runTrace (e :: elems) (nullish (delayTime options) 1000%Z)
                             (onProgress options) (signal options)
                             (List.length (e :: elems)) timerSeq2 0))
      by apply itemEvents_runTrace_ids.
    split; [reflexivity|].
    split; [now rewrite <- emissions_itemEvents, Hitems, emissions_itemEvents|].
    split; [now rewrite <- progressCalls_itemEvents, Hitems, progressCalls_itemEvents|].
    split; [exact Hitems|].
    split; [now rewrite !timeouts_runTrace | lia].
Qed.

(** Tests 1 and 2 of the harness run the same array; here the same call
    is made twice, at instants 0 and 7500. *)
Lemma independent_calls_agree_witness :
  let options := mkOptions (Some 500%Z) (Some callerCallback) None in
  let numbers := JArray (numberArray [1%float; 2%float; 3%float]) in
  neverCancelled (signal options)
  /\ fst (processWithDelay numbers options (hostState 0 0))
     = fst (processWithDelay numbers options (hostState 7500 12))
  /\ emissions (trace (snd (processWithDelay numbers options (hostState 0 0))))
     = emissions (trace (snd (processWithDelay numbers options (hostState 7500 12)))).
Proof.
  intros options numbers. split; [exact I|].
  pose proof (@independent_calls_agree numbers options 0%Z 7500%Z 0 12 I) as H.
  split; [exact (proj1 H) | exact (proj1 (proj2 H))].
Defined.

(* ================================================================= *)
(** ** Which elements the validation refuses *)

(** C9.  The element check refuses an array exactly when it holds an
    element whose type is not [number]; every value of type [number]
    passes, the not-a-number value and the two infinities included.  So
    [processWithDelay([NaN], {delayTime: 0})] is not rejected with the
    invalid-element error: it is fulfilled, having written [NaN] to the
    console. *)
Theorem only_other_types_are_refused :
  (forall elems options st,
      fst (processWithDelay (JArray elems) options st) = Throw InvalidElementKind
      <-> exists v, In (Some v) elems /\ forall x, v <> JNumber x)
  /\ (forall now timerSeq,
        let r := processWithDelay (JArray [Some (JNumber nan)])
                                  (mkOptions (Some 0%Z) None None)
                                  (hostState now timerSeq) in
        fst r = Normal tt /\ emissions (trace (snd r)) = [JNumber nan])
  /\ (forall options now timerSeq,
        neverCancelled (signal options) ->
        let r := processWithDelay
                   (JArray [Some (JNumber nan); Some (JNumber infinity);
                            Some (JNumber neg_infinity)])
                   options (hostState now timerSeq) in
        fst r = Normal tt
        /\ emissions (trace (snd r))
           = [JNumber nan; JNumber infinity; JNumber neg_infinity]).
Proof.
  split; [|split].
  - intros elems options st. split.
    + intros Hthrow.
      destruct (Array_some (fun item => negb (String.eqb (typeof item) "number")) elems)
        eqn:Hv; [now apply Array_some_spec|].
      exfalso. destruct elems as [|e elems]; [discriminate Hthrow|].
      rewrite process_valid in Hthrow by (assumption || discriminate).
      destruct (forLoop_outcome (e :: elems) (nullish (delayTime options) 1000%Z)
                  (onProgress options) (signal options)
                  (List.length (e :: elems)) 0 st) as [H|H];
        rewrite H in Hthrow; discriminate Hthrow.
    + intros (v & Hin & Hv). unfold processWithDelay.
      cbn [Array_isArray negb slots].
      replace (Array_some _ elems) with true; [reflexivity|].
      symmetry. apply Array_some_spec. now exists v.
  - intros now timerSeq r. subst r. split; reflexivity.
  - intros options now timerSeq Hq r. subst r.
    rewrite process_quiet by (reflexivity || discriminate || assumption).
    split; [reflexivity|]. cbn [snd List.length afterRun].
    unfold afterIteration, iterationTrace. cbn [trace hostState].
    destruct (signal options), (onProgress options); reflexivity.
Qed.

(** A mixed array holds an element of another type; an array of one
    not-a-number value does not. *)
Lemma only_other_types_are_refused_witness :
  fst (processWithDelay
         (JArray [Some (JNumber 1); Some (JString "two"); Some (JNumber 3)])
         noOptions (hostState 0 0))
  = Throw InvalidElementKind
  /\ fst (processWithDelay (JArray [Some (JNumber nan)])
                           (mkOptions (Some 0%Z) None None) (hostState 0 0))
     = Normal tt.
Proof.
  split.
  - apply (proj1 only_other_types_are_refused).
    exists (JString "two"). split; [right; left; reflexivity|].
    intros x; discriminate.
  - exact (proj1 (proj1 (proj2 only_other_types_are_refused) 0%Z 0)).
Defined.

(* ================================================================= *)
(** ** Further properties of processWithDelay *)


Lemma abortMisses_spec (sg : option AbortSignal) (t : Z) :
  abortMisses sg t <-> aborted_opt sg t = false.
Proof.
  unfold abortMisses, aborted_opt, aborted. destruct sg as [s|]; [|tauto].
  destruct (abortTime s) as [ta|]; [|tauto].
  rewrite orb_false_iff, andb_false_iff, Z.ltb_ge, Z.eqb_neq.
  destruct (beatsTimer s).
  - split.
    + intros [H|[_ H]]; [split; [lia | left; lia] | discriminate H].
    + intros [H1 [H2|H2]]; [left; lia | discriminate H2].
  - split.
    + intros [H|[H _]]; (split; [lia | now right]).
    + intros [H1 _]. destruct (Z.eq_dec ta t); [right; now split | left; lia].
Qed.

(** X1.  With a delay the host keeps as asked, a call on a non-empty
    array of numbers is fulfilled exactly when the abort does not reach
    the function by the instant the last timer is due,
    [now + n * delayTime]: there is no signal, or it is never aborted, or
    it is aborted after that instant, or on that instant in a task that
    runs after the task of the last timer.  In every other case the call
    is rejected with the cancellation error. *)
Theorem fulfilled_iff_signal_outlives_run
        (xs : list float) (options : Options) (now : Z) (timerSeq : nat) :
  xs <> [] ->
  let d := nullish (delayTime options) 1000%Z in
  honoured d ->
  let lastDue := (now + Z.of_nat (List.length xs) * d)%Z in
  let r := processWithDelay (JArray (numberArray xs)) options (hostState now timerSeq) in
  (fst r = Normal tt <-> abortMisses (signal options) lastDue)
  /\ (fst r = Throw CancelledKind <-> ~ abortMisses (signal options) lastDue).
Proof.
  intros Hne d Hd lastDue r.
  assert (Hrun : r = forLoop (numberArray xs) d (onProgress options)
                             (signal options) (List.length xs) 0
                             (hostState now timerSeq)).
  { subst r. rewrite process_valid;
      [|apply numberArray_valid|now apply numberArray_nonempty].
    fold (Array_length (numberArray xs)). now rewrite numberArray_length. }
  assert (Hlast : (clock (hostState now timerSeq)
                   + Z.of_nat (List.length xs) * timerDelay d)%Z = lastDue)
    by (now rewrite (timerDelay_honoured Hd)).
  destruct (aborted_opt (signal options) lastDue) eqn:Hab.
  - assert (Hthrow : fst r = Throw CancelledKind).
    { rewrite Hrun. destruct (List.length xs) as [|n] eqn:Hn;
        [destruct xs; [contradiction | discriminate Hn]|].
      apply forLoop_rejected. now rewrite Hlast. }
    assert (Hnot : ~ abortMisses (signal options) lastDue)
      by (intros H; apply abortMisses_spec in H; congruence).
    split; split; intros H; try assumption.
    + rewrite Hthrow in H. discriminate H.
    + contradiction.
  - assert (Hok : fst r = Normal tt)
      by (rewrite Hrun, forLoop_runs; [reflexivity | now rewrite Hlast]).
    assert (Hmiss : abortMisses (signal options) lastDue)
      by (now apply abortMisses_spec).
    split; split; intros H; try assumption.
    + rewrite Hok in H. discriminate H.
    + contradiction.
Qed.

(** Five items of one second each, from instant 0: an abort at 5001 comes
    too late to matter, and so does an abort at 5000 whose task runs
    after the task of the last timer. *)
Lemma fulfilled_iff_signal_outlives_run_witness :
  let options := mkOptions None None (Some (mkSignal (Some 5000%Z) false)) in
  [1%float; 2%float; 3%float; 4%float; 5%float] <> []
  /\ honoured (nullish (delayTime options) 1000%Z)
  /\ fst (processWithDelay
            (JArray (numberArray [1%float; 2%float; 3%float; 4%float; 5%float]))
            options (hostState 0 0))
     = Normal tt.
Proof.
  intros options.
  assert (Hd : honoured (nullish (delayTime options) 1000%Z))
    by (unfold honoured; cbn; lia).
  split; [discriminate|]. split; [exact Hd|].
  apply (proj1 (@fulfilled_iff_signal_outlives_run
                  [1%float; 2%float; 3%float; 4%float; 5%float] options 0%Z 0
                  ltac:(discriminate) Hd)).
  cbn. right. split; reflexivity.
Defined.

(** X2.  With a delay [d] the host keeps as asked and a signal aborted at
    an instant [ta] after the call, the items processed and reported are
    the first [done]: those whose timer was due before [ta], and the one
    whose timer is due at [ta] itself when the task of that timer runs
    ahead of the abort.  So [done] is [(ta - now - 1) / d] when the abort
    runs ahead of a timer due on its instant, and [(ta - now) / d] when
    it runs behind.  If that leaves an item, the call is rejected with
    the cancellation error at the instant [ta] itself, and no listener is
    left on the signal. *)
Theorem cancelled_at_any_instant
        (xs : list float) (options : Options) (s : AbortSignal) (ta : Z)
        (now : Z) (timerSeq : nat) :
  signal options = Some s ->
  abortTime s = Some ta ->
  let d := nullish (delayTime options) 1000%Z in
  honoured d ->
  (now < ta)%Z ->
  let done := Z.to_nat ((ta - now - (if beatsTimer s then 1 else 0)) / d) in
  done < List.length xs ->
  let r := processWithDelay (JArray (numberArray xs)) options (hostState now timerSeq) in
  fst r = Throw CancelledKind
  /\ clock (snd r) = ta
  /\ emissions (trace (snd r)) = map JNumber (firstn done xs)
  /\ progressCalls (trace (snd r))
     = (if supplied (onProgress options)
        then map (fun k => (k, List.length xs)) (seq 1 done) else [])
  /\ listeners (snd r) = [].
Proof.
  intros Hs Hta d Hd Hlo done Hlt r.
  pose proof Hd as [Hd4 _].
  set (b := (if beatsTimer s then 1 else 0)%Z) in *.
  assert (Hb : (0 <= b <= 1)%Z) by (subst b; destruct (beatsTimer s); lia).
  set (q := ((ta - now - b) / d)%Z) in *.
  assert (Hq0 : (0 <= q)%Z) by (apply Z.div_pos; lia).
  assert (Hq1 : (d * q <= ta - now - b)%Z) by (apply Z.mul_div_le; lia).
  assert (Hq2 : (ta - now - b < d * Z.succ q)%Z) by (apply Z.mul_succ_div_gt; lia).
  assert (Hdone : Z.of_nat done = q) by (subst done; now rewrite Z2Nat.id).
  assert (Hne : xs <> []) by (destruct xs; [cbn in Hlt; lia | discriminate]).
  assert (Hpre : aborted s (now + Z.of_nat done * d) = false).
  { unfold aborted. rewrite Hta, Hdone.
    destruct (Z.ltb_spec ta (now + q * d)); [lia|].
    destruct (Z.eqb_spec ta (now + q * d)); [|reflexivity].
    subst b. destruct (beatsTimer s); [lia | reflexivity]. }
  assert (Hdue : aborted s (now + Z.of_nat done * d + d) = true).
  { unfold aborted. rewrite Hta, Hdone.
    destruct (Z.ltb_spec ta (now + q * d + d)); [reflexivity|].
    destruct (Z.eqb_spec ta (now + q * d + d)); [|lia].
    subst b. destruct (beatsTimer s); [reflexivity | lia]. }
  assert (Hrun : r = (Throw CancelledError,
                      dispatchAbort ta
                        (suspended d (afterRun (numberArray xs) d (onProgress options)
                                               (Some s) done 0
                                               (hostState now timerSeq))))).
  { subst r. rewrite process_valid;
      [|apply numberArray_valid|now apply numberArray_nonempty].
    fold (Array_length (numberArray xs)). rewrite numberArray_length, Hs.
    change (nullish (delayTime options) 1000%Z) with d.
    replace (List.length xs) with (done + S (List.length xs - S done)) by lia.
    apply forLoop_interrupted; [exact Hta| |];
      rewrite (timerDelay_honoured Hd); cbn [hostState clock]; assumption. }
  rewrite Hrun. clear Hrun r. cbn [fst snd].
  pose proof (@interrupted_state (numberArray xs) d (onProgress options) s ta
                done 0 now timerSeq) as H.
  cbv zeta in H. destruct H as (Hclock & _ & Hitems & _ & _).
  rewrite itemEvents_runTrace_prefix in Hitems by lia.
  split; [reflexivity|]. split; [exact Hclock|].
  split; [rewrite <- emissions_itemEvents, Hitems; apply emissions_expectedItems|].
  split; [|reflexivity].
  rewrite <- progressCalls_itemEvents, Hitems, progressCalls_expectedItems.
  now rewrite length_firstn, Nat.min_l by lia.
Qed.

(** Five items of 500 ms each and an abort at 1700: three delays have
    elapsed, so three items were processed. *)
Lemma cancelled_at_any_instant_witness :
  let options := mkOptions (Some 500%Z) (Some callerCallback)
                           (Some (mkSignal (Some 1700%Z) true)) in
  let r := processWithDelay
             (JArray (numberArray [1%float; 2%float; 3%float; 4%float; 5%float]))
             options (hostState 0 0) in
  signal options = Some (mkSignal (Some 1700%Z) true)
  /\ abortTime (mkSignal (Some 1700%Z) true) = Some 1700%Z
  /\ honoured (nullish (delayTime options) 1000%Z)
  /\ (0 < 1700)%Z
  /\ Z.to_nat ((1700 - 0 - 1) / 500) < 5
  /\ fst r = Throw CancelledKind
  /\ clock (snd r) = 1700%Z
  /\ emissions (trace (snd r)) = [JNumber 1; JNumber 2; JNumber 3].
Proof.
  intros options r.
  assert (Hd : honoured (nullish (delayTime options) 1000%Z))
    by (unfold honoured; cbn; lia).
  assert (Hta : (0 < 1700)%Z) by lia.
  assert (Hlt : Z.to_nat ((1700 - 0 - 1) / 500) < 5) by (cbn; lia).
  pose proof (@cancelled_at_any_instant
                [1%float; 2%float; 3%float; 4%float; 5%float] options
                (mkSignal (Some 1700%Z) true) 1700%Z 0%Z 0
                eq_refl eq_refl Hd Hta Hlt) as H.
  split; [reflexivity|]. split; [reflexivity|]. split; [exact Hd|].
  split; [exact Hta|]. split; [exact Hlt|].
  split; [exact (proj1 H)|]. split; [exact (proj1 (proj2 H))|].
  exact (proj1 (proj2 (proj2 H))).
Defined.



(** X4.  With a delay the host keeps as asked, when the abort comes
    during the delay of item [k], every listener registered so far runs,
    not only the one of the pending delay: [clearTimeout] is called [k]
    times, once for the timer of each of the items [1..k] in that order,
    although the timers of items [1..k-1] have already fired.  No
    listener is left afterwards. *)
Theorem abort_runs_every_listener
        (xs : list float) (options : Options) (s : AbortSignal) (ta : Z)
        (k : nat) (now : Z) (timerSeq : nat) :
  signal options = Some s ->
  abortTime s = Some ta ->
  1 <= k <= List.length xs ->
  let d := nullish (delayTime options) 1000%Z in
  honoured d ->
  let waitStart := (now + Z.of_nat (k - 1) * d)%Z in
  (waitStart < ta < waitStart + d)%Z ->
  let r := processWithDelay (JArray (numberArray xs)) options (hostState now timerSeq) in
  cleared (trace (snd r)) = seq timerSeq k
  /\ listeners (snd r) = []
  /\ pending (snd r) = [].
Proof.
  intros Hs Hta Hk d Hd waitStart Hwait r.
  assert (Hne : xs <> []) by (destruct xs; [cbn in Hk; lia | discriminate]).
  assert (Hrun : r = (Throw CancelledError,
                      dispatchAbort ta
                        (suspended d (afterRun (numberArray xs) d (onProgress options)
                                               (Some s) (k - 1) 0
                                               (hostState now timerSeq))))).
  { subst r. rewrite process_valid;
      [|apply numberArray_valid|now apply numberArray_nonempty].
    fold (Array_length (numberArray xs)). rewrite numberArray_length, Hs.
    change (nullish (delayTime options) 1000%Z) with d.
    replace (List.length xs) with ((k - 1) + S (List.length xs - k)) by lia.
    apply forLoop_interrupted; [exact Hta| |];
      rewrite (timerDelay_honoured Hd); cbn [hostState clock]; fold waitStart.
    - apply (@aborted_not_yet s ta); [exact Hta | lia].
    - apply (@aborted_before s ta); [exact Hta | lia]. }
  rewrite Hrun. clear Hrun r. cbn [fst snd].
  pose proof (@interrupted_state (numberArray xs) d (onProgress options) s ta
                (k - 1) 0 now timerSeq) as H.
  cbv zeta in H. destruct H as (_ & Hpend & _ & Hcleared & _).
  split; [|split; [reflexivity | exact Hpend]].
  rewrite Hcleared. f_equal. lia.
Qed.

(** Test 6 of the harness: the abort at 1200 ms clears the timer of the
    first item, long fired, and then the timer of the second. *)
Lemma abort_runs_every_listener_witness :
  let options := mkOptions None (Some callerCallback)
                           (Some (mkSignal (Some 1200%Z) true)) in
  signal options = Some (mkSignal (Some 1200%Z) true)
  /\ abortTime (mkSignal (Some 1200%Z) true) = Some 1200%Z
  /\ 1 <= 2 <= List.length [1%float; 2%float; 3%float; 4%float; 5%float]
  /\ honoured (nullish (delayTime options) 1000%Z)
  /\ (0 + Z.of_nat (2 - 1) * 1000 < 1200 < 0 + Z.of_nat (2 - 1) * 1000 + 1000)%Z
  /\ cleared (trace (snd (processWithDelay
                            (JArray (numberArray
                                       [1%float; 2%float; 3%float; 4%float; 5%float]))
                            options (hostState 0 0))))
     = [0; 1].
Proof.
  intros options.
  assert (Hk : 1 <= 2 <= List.length [1%float; 2%float; 3%float; 4%float; 5%float])
    by (cbn; lia).
  assert (Hd : honoured (nullish (delayTime options) 1000%Z))
    by (unfold honoured; cbn; lia).
  assert (Hw : (0 + Z.of_nat (2 - 1) * 1000 < 1200
                < 0 + Z.of_nat (2 - 1) * 1000 + 1000)%Z)
    by (cbn; lia).
  split; [reflexivity|]. split; [reflexivity|]. split; [exact Hk|].
  split; [exact Hd|]. split; [exact Hw|].
  exact (proj1 (@abort_runs_every_listener
                  [1%float; 2%float; 3%float; 4%float; 5%float] options
                  (mkSignal (Some 1200%Z) true) 1200%Z 2 0%Z 0
                  eq_refl eq_refl Hk Hd Hw)).
Defined.

(* ----------------------------------------------------------------- *)
(** *** Arrays with holes *)

Lemma emissions_runTrace
      (numbers : list (option JSValue)) (d : Z) (cb : option Callback)
      (sg : option AbortSignal) (todo id i : nat) :
  emissions (runTrace numbers d cb sg todo id i)
  = map (index numbers) (seq i todo).
Proof.
  revert id i. induction todo as [|todo IH]; intros id i; [reflexivity|].
  cbn [runTrace seq map]. rewrite emissions_app, IH.
  unfold iterationTrace. destruct sg, cb; reflexivity.
Qed.

Lemma progressCalls_runTrace
      (numbers : list (option JSValue)) (d : Z) (cb : option Callback)
      (sg : option AbortSignal) (todo id i : nat) :
  progressCalls (runTrace numbers d cb sg todo id i)
  = if supplied cb
    then map (fun k => (S k, Array_length numbers)) (seq i todo) else [].
Proof.
  revert id i. induction todo as [|todo IH]; intros id i; [now destruct cb|].
  cbn [runTrace seq map]. rewrite progressCalls_app, IH.
  unfold iterationTrace. rewrite Nat.add_1_r. destruct sg, cb; reflexivity.
Qed.

Lemma index_slots (pre l : list (option JSValue)) :
  map (index (pre ++ l)) (seq (List.length pre) (List.length l))
  = map slotValue l.
Proof.
  revert pre. induction l as [|slot l IH]; intros pre; [reflexivity|].
  cbn [List.length seq map]. f_equal.
  - unfold index. rewrite nth_error_app2 by lia. now rewrite Nat.sub_diag.
  - specialize (IH (pre ++ [slot])).
    rewrite <- app_assoc, length_app in IH. cbn [app List.length] in IH.
    now rewrite Nat.add_1_r in IH.
Qed.

(** The validation passes exactly when every element that is present is a
    number. *)
Lemma validation_passes (elems : list (option JSValue)) :
  (forall v, In (Some v) elems -> exists x, v = JNumber x) ->
  Array_some (fun item => negb (String.eqb (typeof item) "number")) elems = false.
Proof.
  intros Hall.
  destruct (Array_some _ elems) eqn:Hv; [|reflexivity].
  apply Array_some_spec in Hv. destruct Hv as (v & Hin & Hv).
  destruct (Hall v Hin) as [x ->]. now elim (Hv x).
Qed.

(** X5.  The element check looks at the elements that are present only,
    so an array with holes whose present elements are all numbers is
    accepted.  Without cancellation the call is then fulfilled after one
    iteration per index, holes included: the console receives, in index
    order, each element, and [undefined] for each hole; [onProgress], when
    supplied, is called once per index, holes included. *)
Theorem holes_are_processed_as_undefined
        (elems : list (option JSValue)) (options : Options)
        (now : Z) (timerSeq : nat) :
  elems <> [] ->
  (forall v, In (Some v) elems -> exists x, v = JNumber x) ->
  neverCancelled (signal options) ->
  let n := List.length elems in
  let r := processWithDelay (JArray elems) options (hostState now timerSeq) in
  fst r = Normal tt
  /\ emissions (trace (snd r)) = map slotValue elems
  /\ progressCalls (trace (snd r))
     = (if supplied (onProgress options)
        then map (fun k => (k, n)) (seq 1 n) else [])
  /\ timeouts (trace (snd r)) = repeat (nullish (delayTime options) 1000%Z) n.
Proof.
  intros Hne Hall Hq n r. subst r.
  rewrite process_quiet; [|now apply validation_passes|exact Hne|exact Hq].
  cbn [fst snd]. rewrite afterRun_trace. cbn [hostState trace nextTimer app].
  fold n. split; [reflexivity|]. split; [|split].
  - rewrite emissions_runTrace. apply (index_slots [] elems).
  - rewrite progressCalls_runTrace. destruct (supplied (onProgress options));
      [|reflexivity].
    unfold Array_length. fold n. now rewrite <- seq_shift, map_map.
  - apply timeouts_runTrace.
Qed.

(** [new Array(2)] filled at index 0 only. *)
Lemma holes_are_processed_as_undefined_witness :
  [Some (JNumber 1); None] <> []
  /\ (forall v, In (Some v) [Some (JNumber 1); None] -> exists x, v = JNumber x)
  /\ neverCancelled (signal (mkOptions (Some 0%Z) None None))
  /\ emissions (trace (snd (processWithDelay (JArray [Some (JNumber 1); None])
                                             (mkOptions (Some 0%Z) None None)
                                             (hostState 0 0))))
     = [JNumber 1; JUndefined].
Proof.
  assert (Hall : forall v, In (Some v) [Some (JNumber 1); None] ->
                           exists x, v = JNumber x).
  { intros v [H|[H|[]]]; [|discriminate H].
    exists 1%float. now injection H as <-. }
  split; [discriminate|]. split; [exact Hall|]. split; [exact I|].
  exact (proj1 (proj2 (@holes_are_processed_as_undefined
                         [Some (JNumber 1); None]
                         (mkOptions (Some 0%Z) None None) 0%Z 0
                         ltac:(discriminate) Hall I))).
Defined.

(* ----------------------------------------------------------------- *)
(** *** The abort on the instant a timer is due *)

(** X7.  With a delay the host keeps as asked and a signal aborted on the
    very instant the timer of item [k] is due, the order in which the
    host runs the two tasks decides item [k].  If the abort runs first,
    its listener rejects the promise: the call is rejected after items
    [1..k-1].  If the timer runs first, the function resumes, its check
    after the delay still reads the signal as active, and item [k] is
    processed and reported; the abort then interrupts the next delay, or,
    when item [k] was the last, comes too late and the call is fulfilled.
    Either way the call ends on that instant. *)
Theorem order_of_abort_and_timer_decides_the_item
        (xs : list float) (options : Options) (s : AbortSignal)
        (k : nat) (now : Z) (timerSeq : nat) :
  signal options = Some s ->
  let d := nullish (delayTime options) 1000%Z in
  honoured d ->
  1 <= k <= List.length xs ->
  abortTime s = Some (now + Z.of_nat k * d)%Z ->
  let r := processWithDelay (JArray (numberArray xs)) options (hostState now timerSeq) in
  emissions (trace (snd r))
  = map JNumber (firstn (if beatsTimer s then k - 1 else k) xs)
  /\ progressCalls (trace (snd r))
     = (if supplied (onProgress options)
        then map (fun j => (j, List.length xs))
                 (seq 1 (if beatsTimer s then k - 1 else k))
        else [])
  /\ (fst r = Normal tt <-> beatsTimer s = false /\ k = List.length xs)
  /\ (fst r = Throw CancelledKind <-> beatsTimer s = true \/ k < List.length xs)
  /\ clock (snd r) = (now + Z.of_nat k * d)%Z.
Proof.
  intros Hs d Hd Hk Hta r.
  pose proof Hd as [Hd4 _].
  assert (Hne : xs <> []) by (destruct xs; [cbn in Hk; lia | discriminate]).
  assert (Hloop : r = forLoop (numberArray xs) d (onProgress options) (Some s)
                              (List.length xs) 0 (hostState now timerSeq)).
  { subst r. rewrite process_valid;
      [|apply numberArray_valid|now apply numberArray_nonempty].
    fold (Array_length (numberArray xs)). now rewrite numberArray_length, Hs. }
  assert (Htie : aborted s (now + Z.of_nat k * d) = beatsTimer s)
    by (now apply aborted_on_the_instant).
  assert (Hcut : forall j, j < List.length xs ->
            aborted s (now + Z.of_nat j * d) = false ->
            aborted s (now + Z.of_nat j * d + d) = true ->
            fst r = Throw CancelledKind
            /\ clock (snd r) = (now + Z.of_nat k * d)%Z
            /\ itemEvents (trace (snd r))
               = expectedItems (supplied (onProgress options)) (List.length xs) 1
                               (firstn j xs)).
  { intros j Hj Hlo Hhi. rewrite Hloop.
    replace (List.length xs) with (j + S (List.length xs - S j)) at 1 2 3 by lia.
    rewrite (@forLoop_interrupted (numberArray xs) d (onProgress options) s
               (now + Z.of_nat k * d) j (List.length xs - S j) 0
               (hostState now timerSeq) Hta);
      [|rewrite (timerDelay_honoured Hd); exact Hlo
       |rewrite (timerDelay_honoured Hd); exact Hhi].
    cbn [fst snd].
    pose proof (@interrupted_state (numberArray xs) d (onProgress options) s
                  (now + Z.of_nat k * d) j 0 now timerSeq) as H.
    cbv zeta in H. destruct H as (Hclock & _ & Hitems & _ & _).
    rewrite itemEvents_runTrace_prefix in Hitems by lia.
    split; [reflexivity|]. split; [exact Hclock | exact Hitems]. }
  assert (Hfrom : forall j, j <= List.length xs ->
            itemEvents (trace (snd r))
            = expectedItems (supplied (onProgress options)) (List.length xs) 1
                            (firstn j xs) ->
            emissions (trace (snd r)) = map JNumber (firstn j xs)
            /\ progressCalls (trace (snd r))
               = (if supplied (onProgress options)
                  then map (fun i => (i, List.length xs)) (seq 1 j) else [])).
  { intros j Hj Hitems. split.
    - rewrite <- emissions_itemEvents, Hitems. apply emissions_expectedItems.
    - rewrite <- progressCalls_itemEvents, Hitems, progressCalls_expectedItems.
      now rewrite length_firstn, Nat.min_l by lia. }
  destruct (beatsTimer s) eqn:Hb.
  - assert (Hlo : aborted s (now + Z.of_nat (k - 1) * d) = false)
      by (apply (@aborted_not_yet s (now + Z.of_nat k * d)); [exact Hta | nia]).
    assert (Hhi : aborted s (now + Z.of_nat (k - 1) * d + d) = true).
    { replace (now + Z.of_nat (k - 1) * d + d)%Z with (now + Z.of_nat k * d)%Z
        by (rewrite Nat2Z.inj_sub by lia; cbn; lia).
      exact Htie. }
    destruct (Hcut (k - 1) ltac:(lia) Hlo Hhi) as (Hout & Hclock & Hitems).
    destruct (Hfrom (k - 1) ltac:(lia) Hitems) as [He Hp].
    split; [exact He|]. split; [exact Hp|].
    split; [split; [intros H; rewrite Hout in H; discriminate H
                   | intros [H _]; discriminate H]|].
    split; [split; [now left | intros _; exact Hout] | exact Hclock].
  - destruct (Nat.eq_dec k (List.length xs)) as [Hlast|Hmore].
    + assert (Hrun : r = (Normal tt,
                          afterRun (numberArray xs) d (onProgress options) (Some s)
                                   (List.length xs) 0 (hostState now timerSeq))).
      { rewrite Hloop. apply forLoop_runs. cbn [aborted_opt hostState clock].
        rewrite (timerDelay_honoured Hd), <- Hlast. exact Htie. }
      assert (Hitems : itemEvents (trace (snd r))
                       = expectedItems (supplied (onProgress options))
                                       (List.length xs) 1 (firstn k xs)).
      { rewrite Hrun. cbn [snd]. rewrite afterRun_trace.
        cbn [hostState trace nextTimer app]. rewrite Hlast.
        now apply itemEvents_runTrace_prefix. }
      destruct (Hfrom k ltac:(lia) Hitems) as [He Hp].
      split; [exact He|]. split; [exact Hp|].
      rewrite Hrun. cbn [fst snd].
      split; [split; [intros _; split; [reflexivity | exact Hlast] | reflexivity]|].
      split; [split; [intros H; discriminate H
                     | intros [H|H]; [discriminate H | lia]]|].
      rewrite afterRun_clock, (timerDelay_honoured Hd), Hlast. reflexivity.
    + assert (Hhi : aborted s (now + Z.of_nat k * d + d) = true)
        by (apply (@aborted_before s (now + Z.of_nat k * d)); [exact Hta | lia]).
      destruct (Hcut k ltac:(lia) Htie Hhi) as (Hout & Hclock & Hitems).
      destruct (Hfrom k ltac:(lia) Hitems) as [He Hp].
      split; [exact He|]. split; [exact Hp|].
      split; [split; [intros H; rewrite Hout in H; discriminate H
                     | intros [_ H]; contradiction]|].
      split; [split; [right; lia | intros _; exact Hout] | exact Hclock].
Qed.

(** Three items of 500 ms each and [controller.abort()] at 1000, when the
    timer of the second item is due: with the timer first, the second
    item is written before the call is rejected. *)
Lemma order_of_abort_and_timer_decides_the_item_witness :
  let options := mkOptions (Some 500%Z) None (Some (mkSignal (Some 1000%Z) false)) in
  let r := processWithDelay (JArray (numberArray [1%float; 2%float; 3%float]))
                            options (hostState 0 0) in
  signal options = Some (mkSignal (Some 1000%Z) false)
  /\ honoured (nullish (delayTime options) 1000%Z)
  /\ 1 <= 2 <= List.length [1%float; 2%float; 3%float]
  /\ abortTime (mkSignal (Some 1000%Z) false) = Some (0 + Z.of_nat 2 * 500)%Z
  /\ emissions (trace (snd r)) = [JNumber 1; JNumber 2]
  /\ fst r = Throw CancelledKind.
Proof.
  intros options r.
  assert (Hd : honoured (nullish (delayTime options) 1000%Z))
    by (unfold honoured; cbn; lia).
  assert (Hk : 1 <= 2 <= List.length [1%float; 2%float; 3%float]) by (cbn; lia).
  pose proof (@order_of_abort_and_timer_decides_the_item
                [1%float; 2%float; 3%float] options (mkSignal (Some 1000%Z) false)
                2 0%Z 0 eq_refl Hd Hk eq_refl) as H.
  split; [reflexivity|]. split; [exact Hd|]. split; [exact Hk|].
  split; [reflexivity|]. split; [exact (proj1 H)|].
  apply (proj2 (proj1 (proj2 (proj2 (proj2 H))))). right. cbn. lia.
Defined.

(* ----------------------------------------------------------------- *)
(** *** A signal that is never aborted *)

Lemma withoutListeners_app (a b : list Event) :
  withoutListeners (a ++ b) = withoutListeners a ++ withoutListeners b.
Proof. apply filter_app. Qed.

Lemma withoutListeners_runTrace
      (numbers : list (option JSValue)) (d : Z) (cb : option Callback)
      (sg : option AbortSignal) (todo id i : nat) :
  withoutListeners (runTrace numbers d cb sg todo id i)
  = runTrace numbers d cb None todo id i.
Proof.
  revert id i. induction todo as [|todo IH]; intros id i; [reflexivity|].
  cbn [runTrace]. rewrite withoutListeners_app, IH. f_equal.
  unfold iterationTrace. destruct sg, cb; reflexivity.
Qed.

(** X8.  Supplying a signal that is never aborted changes nothing but the
    listener registrations: for every [numbers] argument, the call with
    such a signal has the same outcome as the call without a signal, ends
    at the same instant, leaves no more timers pending, and makes the same
    calls in the same order apart from its [addEventListener] calls, of
    which there is one per item. *)
Theorem idle_signal_only_adds_listeners
        (numbers : JSValue) (dT : option Z) (cb : option Callback)
        (s : AbortSignal) (now : Z) (timerSeq : nat) :
  abortTime s = None ->
  let r0 := processWithDelay numbers (mkOptions dT cb None) (hostState now timerSeq) in
  let r1 := processWithDelay numbers (mkOptions dT cb (Some s)) (hostState now timerSeq) in
  fst r1 = fst r0
  /\ clock (snd r1) = clock (snd r0)
  /\ pending (snd r1) = pending (snd r0)
  /\ withoutListeners (trace (snd r1)) = trace (snd r0)
  /\ List.length (trace (snd r1))
     = List.length (trace (snd r0)) + List.length (emissions (trace (snd r0))).
Proof.
  intros Hs r0 r1. subst r0 r1.
  destruct numbers as [| | b | x | z | str | | elems];
    try (cbn; repeat split; reflexivity).
  destruct (Array_some (fun item => negb (String.eqb (typeof item) "number")) elems)
    eqn:Hv.
  - unfold processWithDelay. cbn [Array_isArray negb slots]. rewrite Hv.
    cbn. repeat split; reflexivity.
  - destruct elems as [|e elems]; [cbn; repeat split; reflexivity|].
    rewrite !process_quiet by (assumption || discriminate || exact I).
    cbn [fst snd delayTime onProgress signal].
    rewrite !afterRun_trace, !afterRun_clock, !afterRun_pending by reflexivity.
    cbn [hostState trace nextTimer clock app].
    split; [reflexivity|]. split; [reflexivity|]. split; [reflexivity|].
    split; [apply withoutListeners_runTrace|].
    rewrite emissions_runTrace, length_map, length_seq.
    generalize (List.length (e :: elems)) as todo.
    generalize 0 as i. generalize timerSeq as id.
    intros id i todo. revert id i.
    induction todo as [|todo IH]; intros id i; [reflexivity|].
    cbn [runTrace]. rewrite !length_app, IH.
    unfold iterationTrace. destruct cb; cbn [List.length app]; lia.
Qed.

(** Test 2 of the harness, with and without a signal nobody aborts. *)
Lemma idle_signal_only_adds_listeners_witness :
  let numbers := JArray (numberArray [1%float; 2%float]) in
  abortTime (mkSignal None true) = None
  /\ withoutListeners
       (trace (snd (processWithDelay numbers
                      (mkOptions (Some 500%Z) None (Some (mkSignal None true)))
                      (hostState 0 0))))
     = trace (snd (processWithDelay numbers (mkOptions (Some 500%Z) None None)
                                    (hostState 0 0))).
Proof.
  intros numbers. split; [reflexivity|].
  exact (proj1 (proj2 (proj2 (proj2
           (@idle_signal_only_adds_listeners numbers (Some 500%Z) None
              (mkSignal None true) 0%Z 0 eq_refl))))).
Defined.

(* ================================================================= *)
(** ** Every run, on any host *)

Lemma clearAll_nextTimer (ls : list nat) (st : State) :
  nextTimer (fold_left (fun s id => clearTimeout id s) ls st) = nextTimer st.
Proof.
  revert st; induction ls as [|id ls IH]; intros st; cbn [fold_left].
  - reflexivity.
  - now rewrite IH.
Qed.

Lemma abortDispatched_trace (st : State) :
  trace (AnyHost.abortDispatched st) = trace st ++ map ClearTimeout (listeners st).
Proof. apply dispatchAbort_trace. Qed.

Lemma itemEvents_iterationTrace
      (numbers : list (option JSValue)) (d : Z) (cb : option Callback)
      (sg : option AbortSignal) (id i : nat) :
  itemEvents (iterationTrace numbers d cb sg id i)
  = ConsoleLog (index numbers i)
    :: (if supplied cb then [OnProgress (i + 1) (Array_length numbers)] else []).
Proof. unfold iterationTrace. destruct sg, cb; reflexivity. Qed.

Section OnAnyHost.

Variable host : AnyHost.Host.
Variable numbers : list (option JSValue).
Variable delayTime : Z.
Variable onProgress : option Callback.
Variable signal : option AbortSignal.

(** The delay of iteration [i] fails only when the abort listener settles
    it, and makes no item action and no progress call. *)
Lemma anyHost_awaitDelay_spec (i : nat) (st : State) :
  exists st' extra,
    AnyHost.awaitDelay host delayTime signal i st
    = (match signal, AnyHost.settlement host i with
       | Some _, AnyHost.AbortFirst => Throw CancelledError
       | _, _ => Normal tt
       end, st')
    /\ trace st' = trace st ++ extra
    /\ itemEvents extra = [].
Proof.
  unfold AnyHost.awaitDelay. cbn [setTimeout].
  destruct signal as [s|].
  - destruct (AnyHost.settlement host i); eexists; eexists;
      (split; [reflexivity|]);
      rewrite ?abortDispatched_trace;
      cbn [fireTimer addAbortListener trace listeners];
      rewrite <- ?app_assoc; (split; [reflexivity|]);
      rewrite ?itemEvents_app, ?itemEvents_clear; reflexivity.
  - eexists; eexists. split; [reflexivity|].
    cbn [fireTimer trace]. split; reflexivity.
Qed.

(** A call of [onProgress] is one progress call, and ends as the host
    says. *)
Lemma anyHost_callOnProgress_spec (processed total : nat) (st : State) :
  exists st' extra,
    AnyHost.callOnProgress host signal processed total st
    = (match AnyHost.progressCall host processed total with
       | AnyHost.Returns => Normal tt
       | AnyHost.Throws e => Throw e
       end, st')
    /\ trace st' = trace st ++ extra
    /\ itemEvents extra = [OnProgress processed total].
Proof.
  unfold AnyHost.callOnProgress, emit. cbn [snd].
  destruct signal as [s|];
    [destruct (AnyHost.abortInCallback host processed total)|];
    destruct (AnyHost.progressCall host processed total);
    eexists; eexists; (split; [reflexivity|]);
    rewrite ?abortDispatched_trace; cbn [trace listeners];
    rewrite <- ?app_assoc; (split; [reflexivity|]);
    rewrite ?itemEvents_app, ?itemEvents_clear; reflexivity.
Qed.

(** No check of iteration [i] finds the signal aborted and the callback
    returns: the iteration makes the item action and the progress call
    of item [i], and returns. *)
Lemma anyHost_loopBody_completes (i : nat) (st : State) :
  AnyHost.completes host numbers onProgress signal i = true ->
  exists st' extra,
    AnyHost.loopBody host numbers delayTime onProgress signal i st = (Normal tt, st')
    /\ trace st' = trace st ++ extra
    /\ itemEvents extra
       = itemEvents (iterationTrace numbers delayTime onProgress signal 0 i).
Proof.
  unfold AnyHost.completes, AnyHost.sees, AnyHost.reports.
  intros H. apply andb_true_iff in H. destruct H as [Hsees Hrep].
  apply negb_true_iff in Hsees.
  rewrite itemEvents_iterationTrace.
  unfold AnyHost.loopBody, bind, AnyHost.checkCancelled.
  destruct (anyHost_awaitDelay_spec i st) as (st1 & ex1 & Hrun1 & Ht1 & Hi1).
  assert (Hpass : (match signal with
                   | Some _ => if AnyHost.abortedAtLoopHead host i
                               then throw CancelledError else ret tt
                   | None => ret tt
                   end) st = (Normal tt, st)
                  /\ AnyHost.awaitDelay host delayTime signal i st = (Normal tt, st1)
                  /\ (match signal with
                      | Some _ => if AnyHost.abortedAfterDelay host i
                                  then throw CancelledError else ret tt
                      | None => ret tt
                      end) st1 = (Normal tt, st1)).
  { rewrite Hrun1. destruct signal as [s|]; [|now repeat split].
    apply orb_false_iff in Hsees. destruct Hsees as [Hsees Hpost].
    apply orb_false_iff in Hsees. destruct Hsees as [Hhead Hset].
    rewrite Hhead, Hpost.
    destruct (AnyHost.settlement host i); [| discriminate Hset |]; now repeat split. }
  destruct Hpass as (-> & -> & ->).
  unfold emit at 1. unfold when.
  destruct onProgress as [cb|]; cbn [supplied].
  - match goal with
    | |- context [AnyHost.callOnProgress host signal ?p ?t ?s] =>
        destruct (anyHost_callOnProgress_spec p t s)
          as (st2 & ex2 & Hrun2 & Ht2 & Hi2)
    end.
    rewrite Hrun2.
    destruct (AnyHost.progressCall host (i + 1) (Array_length numbers));
      [|discriminate Hrep].
    exists st2, (ex1 ++ [ConsoleLog (index numbers i)] ++ ex2).
    split; [reflexivity|]. split.
    + rewrite Ht2. cbn [trace]. rewrite Ht1, <- !app_assoc. reflexivity.
    + rewrite !itemEvents_app, Hi1, Hi2. reflexivity.
  - eexists. exists (ex1 ++ [ConsoleLog (index numbers i)]).
    split; [reflexivity|]. split.
    + cbn [trace]. rewrite Ht1, <- !app_assoc. reflexivity.
    + rewrite !itemEvents_app, Hi1. reflexivity.
Qed.

(** The same, on a host that lets the timer settle the delay and whose
    callback leaves the signal alone: the state is the one a complete
    iteration leaves. *)
Lemma anyHost_loopBody_plain (i : nat) (st : State) :
  AnyHost.completes host numbers onProgress signal i = true ->
  AnyHost.settlement host i = AnyHost.TimerFirst ->
  AnyHost.abortInCallback host (i + 1) (Array_length numbers) = false ->
  AnyHost.loopBody host numbers delayTime onProgress signal i st
  = (Normal tt,
     atClock (clock st) (afterIteration numbers delayTime onProgress signal i st)).
Proof.
  unfold AnyHost.completes, AnyHost.sees, AnyHost.reports.
  intros H Hset Hquiet. apply andb_true_iff in H. destruct H as [Hsees Hrep].
  apply negb_true_iff in Hsees.
  unfold AnyHost.loopBody, bind, AnyHost.checkCancelled, AnyHost.awaitDelay,
    AnyHost.callOnProgress, afterIteration, iterationTrace, atClock.
  rewrite Hset, Hquiet.
  destruct signal as [s|].
  - apply orb_false_iff in Hsees. destruct Hsees as [Hsees Hpost].
    apply orb_false_iff in Hsees. destruct Hsees as [Hhead _].
    rewrite Hhead. cbn [setTimeout ret].
    cbn [addAbortListener fireTimer clock nextTimer pending listeners trace].
    rewrite Hpost. unfold emit, when, ret.
    destruct onProgress as [cb|]; cbn [supplied].
    + destruct (AnyHost.progressCall host (i + 1) (Array_length numbers));
        [|discriminate Hrep].
      cbn. repeat rewrite <- app_assoc. reflexivity.
    + cbn. repeat rewrite <- app_assoc. reflexivity.
  - cbn [setTimeout fireTimer clock nextTimer pending listeners trace ret].
    unfold emit, when, ret.
    destruct onProgress as [cb|]; cbn [supplied].
    + destruct (AnyHost.progressCall host (i + 1) (Array_length numbers));
        [|discriminate Hrep].
      cbn. repeat rewrite <- app_assoc. reflexivity.
    + cbn. repeat rewrite <- app_assoc. reflexivity.
Qed.

(** A check of iteration [i] finds the signal aborted: the iteration
    fails with the cancellation error, and what it adds to the trace
    holds no item action and no progress call. *)
Lemma anyHost_loopBody_cancelled (i : nat) (st : State) :
  AnyHost.sees host signal i = true ->
  exists st' extra,
    AnyHost.loopBody host numbers delayTime onProgress signal i st
    = (Throw CancelledError, st')
    /\ trace st' = trace st ++ extra
    /\ itemEvents extra = [].
Proof.
  unfold AnyHost.sees. intros Hsees.
  unfold AnyHost.loopBody, bind, AnyHost.checkCancelled.
  destruct (anyHost_awaitDelay_spec i st) as (st1 & ex1 & Hrun1 & Ht1 & Hi1).
  destruct signal as [s|]; [|discriminate Hsees].
  destruct (AnyHost.abortedAtLoopHead host i).
  - exists st, []. rewrite app_nil_r. now repeat split.
  - cbn [ret]. rewrite Hrun1. cbn [orb] in Hsees.
    destruct (AnyHost.settlement host i).
    + cbn [orb] in Hsees. rewrite Hsees. exists st1, ex1. now repeat split.
    + exists st1, ex1. now repeat split.
    + cbn [orb] in Hsees. rewrite Hsees. exists st1, ex1. now repeat split.
Qed.

(** No check of iteration [i] finds the signal aborted and the callback
    throws: the iteration fails with the error of the callback. *)
Lemma anyHost_loopBody_callback_throws (i : nat) (st : State) :
  AnyHost.sees host signal i = false ->
  AnyHost.reports host numbers onProgress i = false ->
  exists e st',
    supplied onProgress = true
    /\ AnyHost.progressCall host (i + 1) (Array_length numbers) = AnyHost.Throws e
    /\ AnyHost.loopBody host numbers delayTime onProgress signal i st = (Throw e, st').
Proof.
  unfold AnyHost.sees, AnyHost.reports. intros Hsees Hrep.
  destruct onProgress as [cb|] eqn:Hcb; [|discriminate Hrep].
  destruct (AnyHost.progressCall host (i + 1) (Array_length numbers)) as [|e] eqn:Hcall;
    [discriminate Hrep|].
  exists e.
  unfold AnyHost.loopBody, bind, AnyHost.checkCancelled.
  destruct (anyHost_awaitDelay_spec i st) as (st1 & ex1 & Hrun1 & _).
  assert (Hpass : (match signal with
                   | Some _ => if AnyHost.abortedAtLoopHead host i
                               then throw CancelledError else ret tt
                   | None => ret tt
                   end) st = (Normal tt, st)
                  /\ AnyHost.awaitDelay host delayTime signal i st = (Normal tt, st1)
                  /\ (match signal with
                      | Some _ => if AnyHost.abortedAfterDelay host i
                                  then throw CancelledError else ret tt
                      | None => ret tt
                      end) st1 = (Normal tt, st1)).
  { rewrite Hrun1. destruct signal as [s|]; [|now repeat split].
    apply orb_false_iff in Hsees. destruct Hsees as [Hsees Hpost].
    apply orb_false_iff in Hsees. destruct Hsees as [Hhead Hset].
    rewrite Hhead, Hpost.
    destruct (AnyHost.settlement host i); [| discriminate Hset |]; now repeat split. }
  destruct Hpass as (-> & -> & ->).
  unfold emit at 1. unfold when. cbn [supplied].
  match goal with
  | |- context [AnyHost.callOnProgress host signal ?p ?t ?s] =>
      destruct (anyHost_callOnProgress_spec p t s) as (st2 & ex2 & Hrun2 & _)
  end.
  rewrite Hrun2, Hcall. exists st2. now repeat split.
Qed.

(** The loop over [a + b] iterations is the loop over [a], then over [b]. *)
Lemma anyHost_forLoop_split (a b i : nat) (st : State) :
  AnyHost.forLoop host numbers delayTime onProgress signal (a + b) i st
  = match AnyHost.forLoop host numbers delayTime onProgress signal a i st with
    | (Normal _, st') =>
        AnyHost.forLoop host numbers delayTime onProgress signal b (i + a) st'
    | (Throw e, st') => (Throw e, st')
    end.
Proof.
  revert i st. induction a as [|a IH]; intros i st.
  - cbn [AnyHost.forLoop Nat.add ret]. now rewrite Nat.add_0_r.
  - cbn [AnyHost.forLoop Nat.add]. unfold bind.
    destruct (AnyHost.loopBody host numbers delayTime onProgress signal i st)
      as [[[]|e] st1]; [|reflexivity].
    rewrite IH. now replace (S i + a) with (i + S a) by lia.
Qed.

(** While every iteration completes, the loop makes the item actions and
    progress calls of complete iterations. *)
Lemma anyHost_forLoop_completes (j i : nat) (st : State) :
  (forall i', i <= i' < i + j ->
              AnyHost.completes host numbers onProgress signal i' = true) ->
  exists st' extra,
    AnyHost.forLoop host numbers delayTime onProgress signal j i st = (Normal tt, st')
    /\ trace st' = trace st ++ extra
    /\ itemEvents extra
       = itemEvents (runTrace numbers delayTime onProgress signal j 0 i).
Proof.
  revert i st. induction j as [|j IH]; intros i st Hall.
  - exists st, []. cbn [AnyHost.forLoop ret runTrace]. now rewrite app_nil_r.
  - cbn [AnyHost.forLoop]. unfold bind.
    destruct (anyHost_loopBody_completes i st) as (st1 & ex1 & Hbody & Ht1 & Hi1);
      [apply Hall; lia|].
    rewrite Hbody.
    destruct (IH (S i) st1) as (st' & ex & Hrun & Ht & Hi);
      [intros i' Hi'; apply Hall; lia|].
    exists st', (ex1 ++ ex). split; [exact Hrun|]. split.
    + now rewrite Ht, Ht1, app_assoc.
    + cbn [runTrace]. rewrite !itemEvents_app, Hi1, Hi.
      f_equal. apply itemEvents_runTrace_ids.
Qed.

(** How a run of the loop ends: every iteration completes and the loop
    returns; or a check finds the signal aborted and the loop fails with
    the cancellation error; or the callback throws and the loop fails
    with its error. *)
Lemma anyHost_forLoop_outcome (todo i : nat) (st : State) :
  let r := AnyHost.forLoop host numbers delayTime onProgress signal todo i st in
  fst r = Normal tt
  \/ (exists k, i <= k < i + todo
                /\ AnyHost.sees host signal k = true
                /\ fst r = Throw CancelledError)
  \/ (exists k e, i <= k < i + todo
                  /\ supplied onProgress = true
                  /\ AnyHost.progressCall host (k + 1) (Array_length numbers)
                     = AnyHost.Throws e
                  /\ fst r = Throw e).
Proof.
  revert i st. induction todo as [|todo IH]; intros i st; [now left|].
  cbn zeta. cbn [AnyHost.forLoop]. unfold bind.
  destruct (AnyHost.sees host signal i) eqn:Hsees.
  - destruct (anyHost_loopBody_cancelled i st Hsees) as (st' & extra & Hbody & _).
    rewrite Hbody. right. left. exists i. split; [lia|]. now split.
  - destruct (AnyHost.reports host numbers onProgress i) eqn:Hrep.
    + destruct (anyHost_loopBody_completes i st) as (st1 & ex1 & Hbody & _);
        [unfold AnyHost.completes; now rewrite Hsees, Hrep|].
      rewrite Hbody.
      destruct (IH (S i) st1)
        as [H|[(k & Hk & Hs & H)|(k & e & Hk & Hcb & Hcall & H)]].
      * now left.
      * right. left. exists k. split; [lia|]. now split.
      * right. right. exists k, e. split; [lia|]. now repeat split.
    + destruct (anyHost_loopBody_callback_throws i st Hsees Hrep)
        as (e & st' & Hcb & Hcall & Hbody).
      rewrite Hbody. right. right. exists i, e. split; [lia|]. now repeat split.
Qed.

End OnAnyHost.

Lemma anyHost_process_valid
      (host : AnyHost.Host) (elems : list (option JSValue)) (options : Options)
      (st : State) :
  Array_some (fun item => negb (String.eqb (typeof item) "number")) elems = false ->
  elems <> [] ->
  AnyHost.processWithDelay host (JArray elems) options st
  = AnyHost.forLoop host elems (nullish (delayTime options) 1000%Z)
                    (onProgress options) (signal options) (List.length elems) 0 st.
Proof.
  intros Hv Hne. unfold AnyHost.processWithDelay.
  cbn [Array_isArray negb slots]. rewrite Hv.
  destruct elems as [|e elems]; [contradiction | reflexivity].
Qed.

(** C6.  On every host, in every run over an array of numbers: when the
    first cancellation check to find the signal aborted is one of
    iteration [k] (the read before the delay, the abort listener during
    the delay, or the read after the delay; counted from 0, the
    iterations before it having run to their end), the call is rejected
    with the cancellation error, and the item actions and progress calls
    of the run are those of the items before [k], in order, and no
    others: none is made for item [k] or a later one.  What was in the
    trace before the call stays there; the run only adds to it. *)
Theorem cancellation_is_final
        (host : AnyHost.Host) (xs : list float) (options : Options) (st : State)
        (k : nat) :
  k < List.length xs ->
  (forall i, i < k ->
     AnyHost.completes host (numberArray xs) (onProgress options) (signal options) i
     = true) ->
  AnyHost.sees host (signal options) k = true ->
  let r := AnyHost.processWithDelay host (JArray (numberArray xs)) options st in
  let total := List.length xs in
  fst r = Throw CancelledKind
  /\ itemEvents (trace (snd r))
     = itemEvents (trace st)
       ++ expectedItems (supplied (onProgress options)) total 1 (firstn k xs)
  /\ emissions (trace (snd r)) = emissions (trace st) ++ map JNumber (firstn k xs)
  /\ progressCalls (trace (snd r))
     = progressCalls (trace st)
       ++ (if supplied (onProgress options)
           then map (fun j => (j, total)) (seq 1 k) else [])
  /\ exists later, trace (snd r) = trace st ++ later.
Proof.
  intros Hk Hall Hsees r total.
  set (d := nullish (delayTime options) 1000%Z).
  assert (Hne : xs <> []) by (destruct xs; [cbn in Hk; lia | discriminate]).
  destruct (@anyHost_forLoop_completes host (numberArray xs) d (onProgress options)
              (signal options) k 0 st) as (st1 & first & Hfirst & Htrace1 & Hitems1);
    [intros i Hi; apply Hall; lia|].
  destruct (@anyHost_loopBody_cancelled host (numberArray xs) d (onProgress options)
              (signal options) k st1 Hsees) as (st2 & extra & Hbody & Htrace2 & Hextra).
  assert (Hrun : r = (Throw CancelledError, st2)).
  { subst r. rewrite anyHost_process_valid;
      [|apply numberArray_valid|now apply numberArray_nonempty].
    fold (Array_length (numberArray xs)). rewrite numberArray_length. fold d.
    replace (List.length xs) with (k + S (List.length xs - S k)) by lia.
    rewrite anyHost_forLoop_split, Hfirst. cbn [AnyHost.forLoop Nat.add].
    unfold bind. now rewrite Hbody. }
  assert (Hitems : itemEvents (trace st2)
                   = itemEvents (trace st)
                     ++ expectedItems (supplied (onProgress options)) total 1
                                      (firstn k xs)).
  { rewrite Htrace2, Htrace1, !itemEvents_app, Hextra, app_nil_r, Hitems1.
    rewrite itemEvents_runTrace_prefix by lia. reflexivity. }
  rewrite Hrun. cbn [fst snd].
  split; [reflexivity|]. split; [exact Hitems|].
  split; [|split].
  - rewrite <- emissions_itemEvents, Hitems, emissions_app.
    now rewrite emissions_itemEvents, emissions_expectedItems.
  - rewrite <- progressCalls_itemEvents, Hitems, progressCalls_app.
    rewrite progressCalls_itemEvents, progressCalls_expectedItems.
    now rewrite length_firstn, Nat.min_l by lia.
  - exists (first ++ extra). now rewrite Htrace2, Htrace1, app_assoc.
Qed.

(** A callback that calls [controller.abort()] when it reports the first
    of three items: the read at the head of the second iteration finds
    the signal aborted. *)
Lemma cancellation_is_final_witness :
  let host := AnyHost.mkHost (fun i => Nat.leb 1 i) (fun _ => AnyHost.TimerFirst)
                             (fun _ => false) (fun _ _ => AnyHost.Returns)
                             (fun processed _ => Nat.eqb processed 1) in
  let options := mkOptions (Some 500%Z) (Some callerCallback)
                           (Some (mkSignal None true)) in
  let r := AnyHost.processWithDelay host
             (JArray (numberArray [1%float; 2%float; 3%float])) options
             (hostState 0 0) in
  1 < List.length [1%float; 2%float; 3%float]
  /\ (forall i, i < 1 ->
        AnyHost.completes host (numberArray [1%float; 2%float; 3%float])
                          (onProgress options) (signal options) i = true)
  /\ AnyHost.sees host (signal options) 1 = true
  /\ fst r = Throw CancelledKind
  /\ emissions (trace (snd r)) = [JNumber 1]
  /\ progressCalls (trace (snd r)) = [(1, 3)].
Proof.
  intros host options r.
  assert (Hk : 1 < List.length [1%float; 2%float; 3%float]) by (cbn; lia).
  assert (Hall : forall i, i < 1 ->
            AnyHost.completes host (numberArray [1%float; 2%float; 3%float])
                              (onProgress options) (signal options) i = true)
    by (intros [|i] Hi; [reflexivity | lia]).
  pose proof (@cancellation_is_final host [1%float; 2%float; 3%float] options
                (hostState 0 0) 1 Hk Hall eq_refl) as H.
  split; [exact Hk|]. split; [exact Hall|]. split; [reflexivity|].
  split; [exact (proj1 H)|].
  split; [exact (proj1 (proj2 (proj2 H)))|].
  exact (proj1 (proj2 (proj2 (proj2 H)))).
Defined.

(* ----------------------------------------------------------------- *)
(** *** The outcomes of a call *)

(** X6.  On every host a call has one of five outcomes: it is fulfilled,
    or rejected with one of the three errors of the function, or rejected
    with the error a call of [onProgress] threw, which the function does
    not catch.  When [onProgress] is not supplied or returns from every
    call, the first four are the only outcomes; the call is then rejected
    with the invalid-input error exactly when [numbers] is not an array,
    and rejected with the cancellation error only if [numbers] is a
    non-empty array, a signal was supplied and a check of some iteration
    found it aborted: a call without a signal, or on the empty array,
    never fails that way. *)
Theorem outcomes_of_a_call
        (host : AnyHost.Host) (numbers : JSValue) (options : Options) (st : State) :
  let r := AnyHost.processWithDelay host numbers options st in
  let n := Array_length (slots numbers) in
  (fst r = Normal tt
   \/ fst r = Throw InvalidInputKind
   \/ fst r = Throw InvalidElementKind
   \/ fst r = Throw CancelledKind
   \/ exists i e,
        i < n
        /\ supplied (onProgress options) = true
        /\ AnyHost.progressCall host (i + 1) n = AnyHost.Throws e
        /\ fst r = Throw e)
  /\ ((forall i, i < n ->
         AnyHost.reports host (slots numbers) (onProgress options) i = true) ->
      (fst r = Normal tt
       \/ fst r = Throw InvalidInputKind
       \/ fst r = Throw InvalidElementKind
       \/ fst r = Throw CancelledKind)
      /\ (fst r = Throw InvalidInputKind <-> Array_isArray numbers = false)
      /\ (fst r = Throw CancelledKind ->
          slots numbers <> []
          /\ exists s i,
               signal options = Some s
               /\ i < n
               /\ AnyHost.sees host (signal options) i = true)).
Proof.
  intros r n.
  destruct (Array_isArray numbers) eqn:Harr.
  - destruct numbers as [| | b | x | z | str | | elems]; try discriminate Harr.
    cbn [slots] in *.
    destruct (Array_some (fun item => negb (String.eqb (typeof item) "number")) elems)
      eqn:Hv.
    + assert (Hr : r = (Throw InvalidElementKind, st)).
      { subst r. unfold AnyHost.processWithDelay. cbn [Array_isArray negb slots].
        now rewrite Hv. }
      rewrite Hr. cbn [fst]. split; [auto|]. intros _. split; [auto|].
      split; [split; discriminate | discriminate].
    + destruct elems as [|e0 elems].
      * subst r. cbn. split; [auto|]. intros _. split; [auto|].
        split; [split; discriminate | discriminate].
      * assert (Hr : r = AnyHost.forLoop host (e0 :: elems)
                           (nullish (delayTime options) 1000%Z)
                           (onProgress options) (signal options)
                           (List.length (e0 :: elems)) 0 st).
        { subst r. apply anyHost_process_valid; [exact Hv | discriminate]. }
        pose proof (@anyHost_forLoop_outcome host (e0 :: elems)
                      (nullish (delayTime options) 1000%Z)
                      (onProgress options) (signal options)
                      (List.length (e0 :: elems)) 0 st) as Hout.
        cbv zeta in Hout. rewrite <- Hr in Hout.
        fold (Array_length (e0 :: elems)) in Hout. fold n in Hout.
        destruct Hout as [H|[(k & Hk & Hs & H)|(k & e & Hk & Hcb & Hcall & H)]].
        -- split; [auto|]. intros _. split; [auto|]. rewrite H.
           split; [split; discriminate | discriminate].
        -- split; [right; right; right; left; exact H|].
           intros _. split; [right; right; right; exact H|]. rewrite H.
           split; [split; discriminate|].
           intros _. split; [discriminate|].
           destruct (signal options) as [s|] eqn:Hsig; [|discriminate Hs].
           exists s, k. split; [reflexivity|]. split; [lia | exact Hs].
        -- split; [right; right; right; right; exists k, e;
                   split; [lia|]; now repeat split|].
           intros Hrep. exfalso. specialize (Hrep k ltac:(lia)).
           unfold AnyHost.reports in Hrep.
           destruct (onProgress options); [|discriminate Hcb].
           fold n in Hrep. rewrite Hcall in Hrep. discriminate Hrep.
  - assert (Hr : r = (Throw InvalidInputKind, st)).
    { subst r. unfold AnyHost.processWithDelay. now rewrite Harr. }
    rewrite Hr. cbn [fst]. split; [auto|]. intros _. split; [auto|].
    split; [split; reflexivity | discriminate].
Qed.

(** Test 5 of the harness, and a callback that throws when it reports the
    second item: the call is rejected with the error of the callback. *)
Lemma outcomes_of_a_call_witness :
  let host := AnyHost.mkHost (fun _ => false) (fun _ => AnyHost.TimerFirst)
                (fun _ => false)
                (fun processed _ => if Nat.eqb processed 2
                                    then AnyHost.Throws (Error "callback failed")
                                    else AnyHost.Returns)
                (fun _ _ => false) in
  (forall i, i < Array_length (slots (JString "not an array")) ->
     AnyHost.reports host (slots (JString "not an array")) (onProgress noOptions) i
     = true)
  /\ fst (AnyHost.processWithDelay host (JString "not an array") noOptions
                                   (hostState 0 0))
     = Throw InvalidInputKind
  /\ fst (AnyHost.processWithDelay host
            (JArray (numberArray [1%float; 2%float; 3%float]))
            (mkOptions None (Some callerCallback) None) (hostState 0 0))
     = Throw (Error "callback failed").
Proof.
  intros host.
  assert (Hrep : forall i, i < Array_length (slots (JString "not an array")) ->
            AnyHost.reports host (slots (JString "not an array"))
                            (onProgress noOptions) i = true)
    by (intros i Hi; reflexivity).
  split; [exact Hrep|]. split.
  - exact (proj2 (proj1 (proj2 (proj2 (outcomes_of_a_call host
                                         (JString "not an array") noOptions
                                         (hostState 0 0)) Hrep))) eq_refl).
  - reflexivity.
Defined.

(* ----------------------------------------------------------------- *)
(** *** The two embeddings *)

Lemma atClock_dispatchAbort (t t' : Z) (st st' : State) :
  atClock 0 st = atClock 0 st' ->
  atClock 0 (dispatchAbort t st) = atClock 0 (dispatchAbort t' st').
Proof.
  intros H. unfold atClock in H. injection H as Hn Hp Hl Ht.
  unfold atClock, dispatchAbort. cbn [nextTimer pending listeners trace].
  rewrite !clearAll_nextTimer, !clearAll_pending, !clearAll_trace. congruence.
Qed.

Lemma atClock_suspended (d : Z) (st st' : State) :
  atClock 0 st = atClock 0 st' ->
  atClock 0 (suspended d st) = atClock 0 (suspended d st').
Proof.
  intros H. unfold atClock in H. injection H as Hn Hp Hl Ht.
  unfold atClock, suspended. cbn [nextTimer pending listeners trace]. congruence.
Qed.

Lemma atClock_afterIteration
      (numbers : list (option JSValue)) (d : Z) (cb : option Callback)
      (sg : option AbortSignal) (i : nat) (t : Z) (st st' : State) :
  atClock 0 st = atClock 0 st' ->
  atClock 0 (afterIteration numbers d cb sg i st)
  = atClock 0 (atClock t (afterIteration numbers d cb sg i st')).
Proof.
  intros H. unfold atClock in H. injection H as Hn Hp Hl Ht.
  unfold atClock, afterIteration. cbn [nextTimer pending listeners trace].
  now rewrite Hn, Hp, Hl, Ht.
Qed.

(** The loop of the first embedding is the loop on the host that its
    clock and signal schedule: the same outcome and, the clock apart, the
    same state. *)
Lemma scheduled_forLoop
      (numbers : list (option JSValue)) (d : Z) (cb : option Callback)
      (sg : option AbortSignal) (now : Z) (todo i : nat) (st st' : State) :
  clock st = (now + Z.of_nat i * timerDelay d)%Z ->
  atClock 0 st = atClock 0 st' ->
  fst (forLoop numbers d cb sg todo i st)
  = fst (AnyHost.forLoop (AnyHost.scheduledHost now d sg) numbers d cb sg todo i st')
  /\ atClock 0 (snd (forLoop numbers d cb sg todo i st))
     = atClock 0 (snd (AnyHost.forLoop (AnyHost.scheduledHost now d sg)
                                       numbers d cb sg todo i st')).
Proof.
  revert i st st'. induction todo as [|todo IH]; intros i st st' Hclock Hsame.
  - now split.
  - assert (Hnext : (now + Z.of_nat (S i) * timerDelay d)%Z
                    = (clock st + timerDelay d)%Z) by lia.
    cbn [forLoop AnyHost.forLoop]. unfold bind.
    destruct (aborted_opt sg (clock st + timerDelay d)) eqn:Hdue.
    + destruct (aborted_opt sg (clock st)) eqn:Hpre.
      * rewrite loopBody_before by exact Hpre.
        destruct sg as [s|]; [|discriminate Hpre].
        unfold AnyHost.loopBody, bind, AnyHost.checkCancelled.
        cbn [AnyHost.scheduledHost AnyHost.abortedAtLoopHead].
        rewrite <- Hclock, Hpre. cbn [throw fst snd]. now split.
      * destruct sg as [s|]; [|discriminate Hdue]. cbn [aborted_opt] in *.
        destruct (abortTime s) as [ta|] eqn:Hta;
          [|unfold aborted in Hdue; rewrite Hta in Hdue; discriminate Hdue].
        rewrite (@loopBody_during numbers d cb (Some s) i st s ta eq_refl Hta Hpre Hdue).
        unfold AnyHost.loopBody, bind, AnyHost.checkCancelled, AnyHost.awaitDelay.
        cbn [AnyHost.scheduledHost AnyHost.abortedAtLoopHead AnyHost.settlement
             aborted_opt].
        rewrite Hnext, <- Hclock, Hpre. cbn [setTimeout ret].
        unfold interruptedAt. rewrite Hta, Hpre, Hdue. cbn [negb andb fst snd].
        split; [reflexivity|].
        pose proof (suspended_eq d st') as Hsus. cbn [setTimeout snd] in Hsus.
        rewrite Hsus. unfold AnyHost.abortDispatched.
        now apply atClock_dispatchAbort, atClock_suspended.
    + rewrite (@loopBody_normal numbers d cb sg i st Hdue).
      assert (Hpre : aborted_opt sg (clock st) = false)
        by (apply (@aborted_opt_earlier sg _ (clock st + timerDelay d));
            [pose proof (timerDelay_nonneg d); lia | exact Hdue]).
      assert (Hset : AnyHost.settlement (AnyHost.scheduledHost now d sg) i
                     = AnyHost.TimerFirst).
      { cbn [AnyHost.scheduledHost AnyHost.settlement].
        rewrite Hnext, <- Hclock.
        destruct sg as [s|]; [|reflexivity].
        cbn [aborted_opt] in Hdue. unfold interruptedAt. rewrite Hdue, andb_false_r.
        now destruct (abortTime s). }
      rewrite anyHost_loopBody_plain; [|  | exact Hset | reflexivity].
      * apply IH.
        -- cbn [afterIteration clock]. lia.
        -- now apply atClock_afterIteration.
      * unfold AnyHost.completes, AnyHost.sees, AnyHost.reports. rewrite Hset.
        cbn [AnyHost.scheduledHost AnyHost.abortedAtLoopHead
             AnyHost.abortedAfterDelay AnyHost.progressCall].
        rewrite Hnext, <- Hclock, Hpre, Hdue. now destruct sg, cb.
Qed.

(** A call in the first embedding is the call on the scheduled host: the
    same outcome, the same calls in the same order, the same timers
    pending and the same listeners left. *)
Lemma scheduled_host_agrees
      (numbers : JSValue) (options : Options) (now : Z) (timerSeq : nat) :
  let host := AnyHost.scheduledHost now (nullish (delayTime options) 1000%Z)
                                    (signal options) in
  let r := processWithDelay numbers options (hostState now timerSeq) in
  let r' := AnyHost.processWithDelay host numbers options (hostState now timerSeq) in
  fst r = fst r'
  /\ trace (snd r) = trace (snd r')
  /\ pending (snd r) = pending (snd r')
  /\ listeners (snd r) = listeners (snd r')
  /\ nextTimer (snd r) = nextTimer (snd r').
Proof.
  intros host r r'.
  assert (H : fst r = fst r' /\ atClock 0 (snd r) = atClock 0 (snd r')).
  { subst r r' host. unfold processWithDelay, AnyHost.processWithDelay.
    destruct (negb (Array_isArray numbers)); [now split|].
    destruct (Array_some _ (slots numbers)); [now split|].
    destruct (Nat.eqb (Array_length (slots numbers)) 0); [now split|].
    apply scheduled_forLoop; [cbn; lia | reflexivity]. }
  destruct H as [Hfst Hsnd]. split; [exact Hfst|].
  unfold atClock in Hsnd. injection Hsnd as Hn Hp Hl Ht. now repeat split.
Qed.

(* ================================================================= *)
(** ** The user table: slices and pages *)

Lemma firstn_plus {A : Type} (a b : nat) (l : list A) :
  firstn (a + b) l = firstn a l ++ firstn b (skipn a l).
Proof.
  revert l. induction a as [|a IH]; intros l; [reflexivity|].
  destruct l as [|x l]; [cbn [Nat.add firstn skipn app]; now rewrite firstn_nil|].
  cbn [Nat.add firstn skipn app]. now rewrite IH.
Qed.

Lemma firstn_capped {A : Type} (n : nat) (l : list A) :
  firstn n l = firstn (Nat.min n (List.length l)) l.
Proof.
  destruct (Nat.le_gt_cases n (List.length l)) as [H|H].
  - now rewrite Nat.min_l.
  - rewrite Nat.min_r by lia. now rewrite !firstn_all2 by lia.
Qed.

(** A slice between two natural indices. *)
Lemma slice_nat {A : Type} (l : list A) (a b : nat) :
  UserTable.slice l (Z.of_nat a) (Z.of_nat b) = firstn (b - a) (skipn a l).
Proof.
  unfold UserTable.slice. cbv zeta.
  destruct (Z.ltb_spec (Z.of_nat a) 0); [lia|].
  destruct (Z.ltb_spec (Z.of_nat b) 0); [lia|].
  destruct (Nat.le_gt_cases (List.length l) a) as [Hlen|Hlen].
  - rewrite (Z.min_r (Z.of_nat a)) by lia. rewrite Nat2Z.id.
    rewrite !skipn_all2 by lia. now rewrite !firstn_nil.
  - rewrite (Z.min_l (Z.of_nat a)) by lia. rewrite Nat2Z.id.
    rewrite (firstn_capped (b - a)), length_skipn. f_equal. lia.
Qed.

(** The rows of page [p + 1] when [r] rows make a page. *)
Lemma currentUsers_nat (l : list UserTable.TUser) (p r : nat) :
  UserTable.currentUsers l (Z.of_nat p + 1) (Z.of_nat r)
  = firstn r (skipn (p * r) l).
Proof.
  unfold UserTable.currentUsers, UserTable.endIndex, UserTable.startIndex.
  replace ((Z.of_nat p + 1 - 1) * Z.of_nat r)%Z with (Z.of_nat (p * r)) by lia.
  replace (Z.of_nat (p * r) + Z.of_nat r)%Z with (Z.of_nat (p * r + r)) by lia.
  rewrite slice_nat. f_equal. lia.
Qed.

Lemma chunks_concat {A : Type} (r : nat) (l : list A) (pages : nat) :
  List.concat (map (fun p => firstn r (skipn (p * r) l)) (seq 0 pages))
  = firstn (pages * r) l.
Proof.
  induction pages as [|pages IH]; [reflexivity|].
  rewrite seq_S, map_app, concat_app, IH. cbn [map List.concat Nat.add].
  rewrite app_nil_r. replace (S pages * r) with (pages * r + r) by lia.
  now rewrite firstn_plus.
Qed.

(** The bounds the ceiling gives. *)
Lemma ceilDiv_bounds (a b : Z) :
  (0 < b)%Z ->
  (a <= UserTable.ceilDiv a b * b < a + b)%Z.
Proof.
  intros Hb. unfold UserTable.ceilDiv.
  pose proof (Z.mul_div_le (a + b - 1) b Hb).
  pose proof (Z.mul_succ_div_gt (a + b - 1) b Hb).
  nia.
Qed.

(** X9.  With a positive number of rows per page, the pages 1 to
    [totalPages] hold every row of the sorted list exactly once and in
    order: put one after the other, they give the list back. *)
Theorem pages_partition_the_rows
        (sortedUsers : list UserTable.TUser) (rowsPerPage : Z) :
  (0 < rowsPerPage)%Z ->
  List.concat (map (fun page => UserTable.currentUsers sortedUsers page rowsPerPage)
              (UserTable.fromTo 1 (UserTable.totalPages sortedUsers rowsPerPage)))
  = sortedUsers.
Proof.
  intros Hr. unfold UserTable.totalPages, UserTable.fromTo.
  pose proof (ceilDiv_bounds (Z.of_nat (List.length sortedUsers)) Hr) as Hc.
  set (T := UserTable.ceilDiv (Z.of_nat (List.length sortedUsers)) rowsPerPage) in *.
  replace (T - 1 + 1)%Z with T by lia.
  assert (HT : (0 <= T)%Z) by nia.
  rewrite <- (Z2Nat.id rowsPerPage) by lia.
  set (r := Z.to_nat rowsPerPage) in *.
  rewrite map_map.
  erewrite map_ext; [|intros p; rewrite Z.add_comm; apply currentUsers_nat].
  rewrite chunks_concat. apply firstn_all2.
  assert (Z.of_nat (List.length sortedUsers) <= Z.of_nat (Z.to_nat T * r))%Z; [|lia].
  rewrite Nat2Z.inj_mul, Z2Nat.id by lia. subst r. rewrite Z2Nat.id in * by lia. lia.
Qed.

(** Seven users, three per page: three pages. *)
Lemma pages_partition_the_rows_witness :
  (0 < 3)%Z
  /\ List.concat (map (fun page => UserTable.currentUsers UserTable.sampleUsers page 3)
                 (UserTable.fromTo 1 (UserTable.totalPages UserTable.sampleUsers 3)))
     = UserTable.sampleUsers.
Proof.
  split; [lia|].
  exact (@pages_partition_the_rows UserTable.sampleUsers 3%Z ltac:(lia)).
Defined.

(** X10.  On every page from 1 to [totalPages] the rows shown are the
    rows of the sorted list from index [startIndex] on, there is at least
    one and at most [rowsPerPage] of them, every page but the last is
    full, and the caption is right: the rows are those numbered
    [showingFrom] to [showingTo]. *)
Theorem page_rows_match_the_caption
        (sortedUsers : list UserTable.TUser) (currentPage rowsPerPage : Z) :
  (0 < rowsPerPage)%Z ->
  (1 <= currentPage <= UserTable.totalPages sortedUsers rowsPerPage)%Z ->
  let rows := UserTable.currentUsers sortedUsers currentPage rowsPerPage in
  let count := Z.of_nat (List.length rows) in
  (1 <= count <= rowsPerPage)%Z
  /\ (currentPage < UserTable.totalPages sortedUsers rowsPerPage ->
      count = rowsPerPage)%Z
  /\ (count = UserTable.showingTo sortedUsers currentPage rowsPerPage
              - UserTable.showingFrom currentPage rowsPerPage + 1)%Z
  /\ (forall i, i < List.length rows ->
        nth_error rows i
        = nth_error sortedUsers
                    (Z.to_nat (UserTable.startIndex currentPage rowsPerPage) + i)).
Proof.
  intros Hr Hp rows count.
  pose proof (ceilDiv_bounds (Z.of_nat (List.length sortedUsers)) Hr) as Hc.
  unfold UserTable.totalPages in *.
  set (T := UserTable.ceilDiv (Z.of_nat (List.length sortedUsers)) rowsPerPage) in *.
  assert (Hrows : rows = firstn (Z.to_nat rowsPerPage)
                           (skipn (Z.to_nat (currentPage - 1) * Z.to_nat rowsPerPage)
                                  sortedUsers)).
  { subst rows. rewrite <- currentUsers_nat. f_equal; rewrite Z2Nat.id; lia. }
  assert (Hcount : count = Z.min rowsPerPage
                             (Z.of_nat (List.length sortedUsers)
                              - (currentPage - 1) * rowsPerPage)).
  { subst count. rewrite Hrows, length_firstn, length_skipn. nia. }
  unfold UserTable.showingTo, UserTable.showingFrom, UserTable.endIndex,
    UserTable.startIndex.
  split; [nia|]. split; [nia|]. split; [nia|].
  intros i Hi. rewrite Hrows in *. rewrite nth_error_firstn.
  rewrite length_firstn in Hi.
  destruct (Nat.ltb_spec i (Z.to_nat rowsPerPage)) as [_|Hge]; [|lia].
  rewrite nth_error_skipn. f_equal. nia.
Qed.

(** Seven users, three per page: the last page holds the seventh alone. *)
Lemma page_rows_match_the_caption_witness :
  (0 < 3)%Z
  /\ (1 <= 3 <= UserTable.totalPages UserTable.sampleUsers 3)%Z
  /\ (Z.of_nat (List.length (UserTable.currentUsers UserTable.sampleUsers 3 3))
      = UserTable.showingTo UserTable.sampleUsers 3 3
        - UserTable.showingFrom 3 3 + 1)%Z.
Proof.
  assert (Hp : (1 <= 3 <= UserTable.totalPages UserTable.sampleUsers 3)%Z)
    by (cbn; lia).
  split; [lia|]. split; [exact Hp|].
  exact (proj1 (proj2 (proj2 (@page_rows_match_the_caption
                                UserTable.sampleUsers 3%Z 3%Z ltac:(lia) Hp)))).
Defined.

(** X11.  On a page past the last one the table shows no row, and the
    caption runs backwards: the number it gives as the last row shown is
    smaller than the number it gives as the first. *)
Theorem page_past_the_last_is_empty
        (sortedUsers : list UserTable.TUser) (currentPage rowsPerPage : Z) :
  (0 < rowsPerPage)%Z ->
  (UserTable.totalPages sortedUsers rowsPerPage < currentPage)%Z ->
  UserTable.currentUsers sortedUsers currentPage rowsPerPage = []
  /\ (UserTable.showingTo sortedUsers currentPage rowsPerPage
      < UserTable.showingFrom currentPage rowsPerPage)%Z.
Proof.
  intros Hr Hp.
  pose proof (ceilDiv_bounds (Z.of_nat (List.length sortedUsers)) Hr) as Hc.
  unfold UserTable.totalPages in *.
  set (T := UserTable.ceilDiv (Z.of_nat (List.length sortedUsers)) rowsPerPage) in *.
  split.
  - replace currentPage with (Z.of_nat (Z.to_nat (currentPage - 1)) + 1)%Z
      by (rewrite Z2Nat.id; nia).
    rewrite <- (Z2Nat.id rowsPerPage) by lia. rewrite currentUsers_nat.
    rewrite skipn_all2; [apply firstn_nil|]. nia.
  - unfold UserTable.showingTo, UserTable.showingFrom, UserTable.endIndex,
      UserTable.startIndex. nia.
Qed.

(** Page 3 of ten rows per page, when the filter leaves seven users. *)
Lemma page_past_the_last_is_empty_witness :
  (0 < 10)%Z
  /\ (UserTable.totalPages UserTable.sampleUsers 10 < 3)%Z
  /\ UserTable.currentUsers UserTable.sampleUsers 3 10 = [].
Proof.
  assert (Hp : (UserTable.totalPages UserTable.sampleUsers 10 < 3)%Z) by (cbn; lia).
  split; [lia|]. split; [exact Hp|].
  exact (proj1 (@page_past_the_last_is_empty UserTable.sampleUsers 3%Z 10%Z
                  ltac:(lia) Hp)).
Defined.

(** X12.  While there is at least one page and the current page is one of
    them, the Previous and Next buttons keep it so: Previous moves one
    page down and Next one page up, except that Previous does nothing on
    page 1 and Next nothing on the last page; and a button is disabled
    exactly when a click on it would do nothing. *)
Theorem page_buttons_stay_in_range (total page : Z) :
  (1 <= page <= total)%Z ->
  (1 <= UserTable.previousPage page <= total)%Z
  /\ (1 <= UserTable.nextPage total page <= total)%Z
  /\ UserTable.previousPage page = (if (page =? 1)%Z then 1 else page - 1)%Z
  /\ UserTable.nextPage total page = (if (page =? total)%Z then total else page + 1)%Z
  /\ (UserTable.previousDisabled page = true <-> UserTable.previousPage page = page)
  /\ (UserTable.nextDisabled page total = true <-> UserTable.nextPage total page = page).
Proof.
  intros Hp.
  unfold UserTable.previousPage, UserTable.nextPage, UserTable.previousDisabled,
    UserTable.nextDisabled.
  rewrite !Z.eqb_eq.
  destruct (Z.eqb_spec page 1), (Z.eqb_spec page total); repeat split; lia.
Qed.

Lemma page_buttons_stay_in_range_witness :
  (1 <= 3 <= 3)%Z /\ UserTable.nextPage 3 3 = 3%Z /\ UserTable.previousPage 3 = 2%Z.
Proof.
  pose proof (@page_buttons_stay_in_range 3%Z 3%Z ltac:(lia)) as H.
  split; [lia|].
  split; [exact (proj1 (proj2 (proj2 (proj2 H)))) | exact (proj1 (proj2 (proj2 H)))].
Defined.

(** X13.  There is no page exactly when there is no row.  Then on page 1,
    the page the component starts on, the Next button is not disabled; a
    click on it sets the current page to 0, a page that shows no row, and
    Previous brings it back to 1. *)
Theorem no_rows_no_pages
        (sortedUsers : list UserTable.TUser) (rowsPerPage : Z) :
  (0 < rowsPerPage)%Z ->
  (UserTable.totalPages sortedUsers rowsPerPage = 0%Z <-> sortedUsers = [])
  /\ (sortedUsers = [] ->
      UserTable.nextDisabled 1 (UserTable.totalPages sortedUsers rowsPerPage) = false
      /\ UserTable.nextPage (UserTable.totalPages sortedUsers rowsPerPage) 1 = 0%Z
      /\ UserTable.currentUsers sortedUsers 0 rowsPerPage = []
      /\ UserTable.previousPage 0 = 1%Z).
Proof.
  intros Hr.
  pose proof (ceilDiv_bounds (Z.of_nat (List.length sortedUsers)) Hr) as Hc.
  unfold UserTable.totalPages in *.
  set (T := UserTable.ceilDiv (Z.of_nat (List.length sortedUsers)) rowsPerPage) in *.
  assert (Hiff : T = 0%Z <-> sortedUsers = []).
  { split.
    - intros H0. destruct sortedUsers as [|u l]; [reflexivity|].
      cbn [List.length] in Hc. nia.
    - intros ->. subst T. cbn [List.length Z.of_nat] in *. nia. }
  split; [exact Hiff|].
  intros Hnil. rewrite (proj2 Hiff Hnil). subst sortedUsers.
  split; [reflexivity|]. split; [reflexivity|]. split; [|reflexivity].
  unfold UserTable.currentUsers, UserTable.slice. cbv zeta.
  rewrite skipn_nil. apply firstn_nil.
Qed.

Lemma no_rows_no_pages_witness :
  (0 < 10)%Z
  /\ UserTable.nextPage (UserTable.totalPages [] 10) 1 = 0%Z.
Proof.
  split; [lia|].
  exact (proj1 (proj2 (proj2 (@no_rows_no_pages [] 10%Z ltac:(lia)) eq_refl))).
Defined.

(* ================================================================= *)
(** ** The user table: the page links *)

Lemma fromTo_In (lo hi p : Z) :
  In p (UserTable.fromTo lo hi) <-> (lo <= p <= hi)%Z.
Proof.
  unfold UserTable.fromTo. rewrite in_map_iff. split.
  - intros (k & <- & Hk). apply in_seq in Hk. lia.
  - intros Hp. exists (Z.to_nat (p - lo)). split; [lia|]. apply in_seq. lia.
Qed.

Lemma fromTo_length (lo hi : Z) :
  Z.of_nat (List.length (UserTable.fromTo lo hi)) = Z.max 0 (hi - lo + 1).
Proof. unfold UserTable.fromTo. rewrite length_map, length_seq. lia. Qed.

Lemma steps_sorted (lo : Z) (a n : nat) :
  StronglySorted Z.lt (map (fun k => (lo + Z.of_nat k)%Z) (seq a n)).
Proof.
  revert a. induction n as [|n IH]; intros a; [constructor|].
  cbn [seq map]. constructor; [apply IH|].
  apply Forall_forall. intros p Hp. apply in_map_iff in Hp.
  destruct Hp as (k & <- & Hk). apply in_seq in Hk. lia.
Qed.

Lemma steps_filter (cur lo : Z) (a n : nat) :
  filter (Z.eqb cur) (map (fun k => (lo + Z.of_nat k)%Z) (seq a n))
  = if ((lo + Z.of_nat a <=? cur) && (cur <? lo + Z.of_nat a + Z.of_nat n))%Z%bool
    then [cur] else [].
Proof.
  revert a. induction n as [|n IH]; intros a.
  - cbn [seq map filter].
    destruct (Z.leb_spec (lo + Z.of_nat a) cur), (Z.ltb_spec cur (lo + Z.of_nat a + Z.of_nat 0));
      try reflexivity; lia.
  - cbn [seq map filter]. rewrite IH.
    destruct (Z.eqb_spec cur (lo + Z.of_nat a)) as [->|Hne].
    + destruct (Z.leb_spec (lo + Z.of_nat (S a)) (lo + Z.of_nat a)); [lia|].
      destruct (Z.leb_spec (lo + Z.of_nat a) (lo + Z.of_nat a)); [|lia].
      destruct (Z.ltb_spec (lo + Z.of_nat a)
                           (lo + Z.of_nat a + Z.of_nat (S n))); [reflexivity|lia].
    + destruct (Z.leb_spec (lo + Z.of_nat (S a)) cur),
        (Z.ltb_spec cur (lo + Z.of_nat (S a) + Z.of_nat n)),
        (Z.leb_spec (lo + Z.of_nat a) cur),
        (Z.ltb_spec cur (lo + Z.of_nat a + Z.of_nat (S n)));
        try reflexivity; lia.
Qed.

Lemma fromTo_filter (cur lo hi : Z) :
  filter (Z.eqb cur) (UserTable.fromTo lo hi)
  = if ((lo <=? cur) && (cur <=? hi))%Z%bool then [cur] else [].
Proof.
  unfold UserTable.fromTo. rewrite steps_filter.
  destruct (Z.leb_spec (lo + Z.of_nat 0) cur), (Z.leb_spec lo cur),
    (Z.ltb_spec cur (lo + Z.of_nat 0 + Z.of_nat (Z.to_nat (hi - lo + 1)))),
    (Z.leb_spec cur hi); try reflexivity; lia.
Qed.

Lemma linkedPages_app (a b : list UserTable.PaginationEntry) :
  UserTable.linkedPages (a ++ b) = UserTable.linkedPages a ++ UserTable.linkedPages b.
Proof. apply flat_map_app. Qed.

Lemma activePages_app (a b : list UserTable.PaginationEntry) :
  UserTable.activePages (a ++ b) = UserTable.activePages a ++ UserTable.activePages b.
Proof. apply flat_map_app. Qed.

Lemma linkedPages_links (cur : Z) (pages : list Z) :
  UserTable.linkedPages (map (fun i => UserTable.PageLink i (cur =? i)%Z) pages)
  = pages.
Proof.
  unfold UserTable.linkedPages.
  induction pages as [|p pages IH]; [reflexivity|].
  cbn [map flat_map app]. now rewrite IH.
Qed.

Lemma activePages_links (cur : Z) (pages : list Z) :
  UserTable.activePages (map (fun i => UserTable.PageLink i (cur =? i)%Z) pages)
  = filter (Z.eqb cur) pages.
Proof.
  unfold UserTable.activePages.
  induction pages as [|p pages IH]; [reflexivity|].
  cbn [map flat_map filter]. rewrite IH. now destruct (cur =? p)%Z.
Qed.

(** The pages linked, spelled out. *)
Lemma linkedPages_render (cur total : Z) :
  UserTable.linkedPages (UserTable.renderPaginationItems cur total)
  = if (total <=? 5)%Z then UserTable.fromTo 1 total
    else [1%Z] ++ UserTable.fromTo (Z.max 2 (cur - 1)) (Z.min (total - 1) (cur + 1))
         ++ [total].
Proof.
  unfold UserTable.renderPaginationItems. cbv zeta.
  destruct (total <=? 5)%Z; [apply linkedPages_links|].
  rewrite !linkedPages_app, linkedPages_links.
  destruct (cur >? 3)%Z, (cur <? total - 2)%Z; reflexivity.
Qed.

(** X14.  Among the page links exactly one is shown as active, the link
    of the current page, when the current page is one of the pages 1 to
    [totalPages]; otherwise no link is active. *)
Theorem one_active_link (currentPage totalPages : Z) :
  UserTable.activePages (UserTable.renderPaginationItems currentPage totalPages)
  = if ((1 <=? currentPage) && (currentPage <=? totalPages))%Z%bool
    then [currentPage] else [].
Proof.
  unfold UserTable.renderPaginationItems. cbv zeta.
  destruct (Z.leb_spec totalPages 5) as [Hfew|Hmany].
  - rewrite activePages_links. apply fromTo_filter.
  - rewrite !activePages_app, activePages_links, fromTo_filter.
    assert (Hell : forall b : bool,
               UserTable.activePages (if b then [UserTable.EllipsisStart] else []) = []
               /\ UserTable.activePages (if b then [UserTable.EllipsisEnd] else []) = [])
      by (intros []; split; reflexivity).
    rewrite (proj1 (Hell _)), (proj2 (Hell _)). cbn [app UserTable.activePages flat_map].
    destruct (Z.eqb_spec currentPage 1), (Z.eqb_spec currentPage totalPages),
      (Z.leb_spec (Z.max 2 (currentPage - 1)) currentPage),
      (Z.leb_spec currentPage (Z.min (totalPages - 1) (currentPage + 1))),
      (Z.leb_spec 1 currentPage), (Z.leb_spec currentPage totalPages);
      cbn [andb app]; try reflexivity; try lia; f_equal; lia.
Qed.

Lemma sorted_snoc (l : list Z) (y : Z) :
  StronglySorted Z.lt l ->
  (forall x, In x l -> (x < y)%Z) ->
  StronglySorted Z.lt (l ++ [y]).
Proof.
  induction 1 as [|a l Hs IH Ha]; intros Hy; cbn [app].
  - constructor; constructor.
  - constructor.
    + apply IH. intros x Hx. apply Hy. now right.
    + apply Forall_app. split; [exact Ha|].
      constructor; [|constructor]. apply Hy. now left.
Qed.

(** X15.  The page links come in strictly increasing order of page number,
    so no page is linked twice; every linked page is one of the pages 1 to
    [totalPages]; the first and the last page are always linked, and so is
    the current page when it is one of them; and there are never more
    than seven entries, ellipses included. *)
Theorem page_links_in_order (currentPage totalPages : Z) :
  let items := UserTable.renderPaginationItems currentPage totalPages in
  let pages := UserTable.linkedPages items in
  StronglySorted Z.lt pages
  /\ (forall p, In p pages -> (1 <= p <= totalPages)%Z)
  /\ ((1 <= totalPages)%Z -> In 1%Z pages /\ In totalPages pages)
  /\ ((1 <= currentPage <= totalPages)%Z -> In currentPage pages)
  /\ List.length items <= 7.
Proof.
  intros items pages. subst pages items.
  rewrite linkedPages_render.
  destruct (Z.leb_spec totalPages 5) as [Hfew|Hmany].
  - split; [apply steps_sorted|].
    split; [intros p Hp; now apply fromTo_In in Hp|].
    split; [intros H1; split; apply fromTo_In; lia|].
    split; [intros Hc; apply fromTo_In; lia|].
    unfold UserTable.renderPaginationItems. cbv zeta.
    destruct (Z.leb_spec totalPages 5); [|lia].
    rewrite length_map.
    pose proof (fromTo_length 1 totalPages). lia.
  - set (lo := Z.max 2 (currentPage - 1)).
    set (hi := Z.min (totalPages - 1) (currentPage + 1)).
    split.
    { cbn [app]. constructor.
      - apply sorted_snoc; [apply steps_sorted|].
        intros x Hx. apply fromTo_In in Hx. lia.
      - apply Forall_app. split.
        + apply Forall_forall. intros x Hx. apply fromTo_In in Hx. lia.
        + constructor; [lia|constructor]. }
    split.
    { intros p Hp. cbn [app] in Hp.
      destruct Hp as [<-|Hp]; [lia|]. apply in_app_or in Hp.
      destruct Hp as [Hp|[<-|[]]]; [apply fromTo_In in Hp|]; lia. }
    split.
    { intros _. cbn [app]. split; [now left|]. right. apply in_or_app. right. now left. }
    split.
    { intros Hc. cbn [app].
      destruct (Z.eq_dec currentPage 1) as [->|H1]; [now left|]. right.
      apply in_or_app.
      destruct (Z.eq_dec currentPage totalPages) as [->|H2]; [right; now left|].
      left. apply fromTo_In. lia. }
    unfold UserTable.renderPaginationItems. cbv zeta.
    destruct (Z.leb_spec totalPages 5); [lia|].
    fold lo hi. rewrite !length_app, length_map.
    pose proof (fromTo_length lo hi).
    destruct (currentPage >? 3)%Z, (currentPage <? totalPages - 2)%Z;
      cbn [List.length]; lia.
Qed.

(** Page 5 of 10: links to 1, 4, 5, 6 and 10. *)
Lemma page_links_in_order_witness :
  (1 <= 10)%Z /\ (1 <= 5 <= 10)%Z
  /\ In 5%Z (UserTable.linkedPages (UserTable.renderPaginationItems 5 10))
  /\ In 10%Z (UserTable.linkedPages (UserTable.renderPaginationItems 5 10)).
Proof.
  pose proof (page_links_in_order 5 10) as H. cbv zeta in H.
  split; [lia|]. split; [lia|].
  split; [exact (proj1 (proj2 (proj2 (proj2 H))) ltac:(lia))
         | exact (proj2 (proj1 (proj2 (proj2 H)) ltac:(lia)))].
Defined.

Lemma ellipsis_not_a_link (cur : Z) (pages : list Z) :
  ~ In UserTable.EllipsisStart
       (map (fun i => UserTable.PageLink i (cur =? i)%Z) pages)
  /\ ~ In UserTable.EllipsisEnd
         (map (fun i => UserTable.PageLink i (cur =? i)%Z) pages).
Proof.
  split; intros H; apply in_map_iff in H; destruct H as (i & Hi & _);
    discriminate Hi.
Qed.

Lemma ellipses_render (cur total : Z) :
  (In UserTable.EllipsisStart (UserTable.renderPaginationItems cur total)
   <-> (5 < total /\ 3 < cur)%Z)
  /\ (In UserTable.EllipsisEnd (UserTable.renderPaginationItems cur total)
      <-> (5 < total /\ cur < total - 2)%Z).
Proof.
  unfold UserTable.renderPaginationItems. cbv zeta.
  destruct (Z.leb_spec total 5) as [Hfew|Hmany].
  - split; (split; [intros H; now apply ellipsis_not_a_link in H | lia]).
  - rewrite Z.gtb_ltb.
    split; split.
    + intros H. split; [lia|].
      destruct (Z.ltb_spec 3 cur); [lia|]. exfalso.
      cbn [app] in H. destruct H as [H|H]; [discriminate H|].
      apply in_app_or in H. destruct H as [H|H];
        [now apply ellipsis_not_a_link in H|].
      apply in_app_or in H. destruct H as [H|[H|[]]]; [|discriminate H].
      destruct (cur <? total - 2)%Z; [destruct H as [H|[]]; discriminate H | destruct H].
    + intros [_ Hc]. destruct (Z.ltb_spec 3 cur); [|lia]. cbn [app]. right. now left.
    + intros H. split; [lia|].
      destruct (Z.ltb_spec cur (total - 2)); [lia|]. exfalso.
      cbn [app] in H. destruct H as [H|H]; [discriminate H|].
      apply in_app_or in H. destruct H as [H|H].
      * destruct (3 <? cur)%Z; [destruct H as [H|[]]; discriminate H | destruct H].
      * apply in_app_or in H. destruct H as [H|[H|[]]];
          [now apply ellipsis_not_a_link in H | discriminate H].
    + intros [_ Hc]. destruct (Z.ltb_spec cur (total - 2)); [|lia].
      cbn [app]. right. apply in_or_app. right. apply in_or_app. right. now left.
Qed.

(** X16.  An ellipsis stands exactly where pages are left out: the first
    ellipsis is rendered exactly when some page after the first and
    before the current one has no link, the second exactly when some page
    after the current one and before the last has no link. *)
Theorem ellipsis_marks_hidden_pages (currentPage totalPages : Z) :
  let items := UserTable.renderPaginationItems currentPage totalPages in
  let pages := UserTable.linkedPages items in
  (In UserTable.EllipsisStart items
   <-> exists p, (1 < p < currentPage)%Z /\ (p < totalPages)%Z /\ ~ In p pages)
  /\ (In UserTable.EllipsisEnd items
      <-> exists p, (currentPage < p < totalPages)%Z /\ (1 < p)%Z /\ ~ In p pages).
Proof.
  intros items pages. subst pages items.
  destruct (ellipses_render currentPage totalPages) as [Hs He].
  rewrite Hs, He, linkedPages_render. clear Hs He.
  destruct (Z.leb_spec totalPages 5) as [Hfew|Hmany].
  - split; (split; [lia|]); intros (p & Hp & Hq & Hn); elim Hn;
      apply fromTo_In; lia.
  - assert (Hin : forall p,
               In p ([1%Z] ++ UserTable.fromTo (Z.max 2 (currentPage - 1))
                                               (Z.min (totalPages - 1) (currentPage + 1))
                     ++ [totalPages])
               <-> (p = 1 \/ (Z.max 2 (currentPage - 1) <= p
                              <= Z.min (totalPages - 1) (currentPage + 1))
                    \/ p = totalPages)%Z).
    { intros p. cbn [app]. split.
      - intros [<-|H]; [now left|]. apply in_app_or in H.
        destruct H as [H|[<-|[]]]; [apply fromTo_In in H|]; auto.
      - intros [->|[H| ->]]; [now left| |].
        + right. apply in_or_app. left. now apply fromTo_In.
        + right. apply in_or_app. right. now left. }
    split; split.
    + intros [_ Hc]. exists 2%Z. rewrite Hin. lia.
    + intros (p & Hp & Hq & Hn). rewrite Hin in Hn. lia.
    + intros [_ Hc]. exists (totalPages - 1)%Z. rewrite Hin. lia.
    + intros (p & Hp & Hq & Hn). rewrite Hin in Hn. lia.
Qed.

(* ================================================================= *)
(** ** The user table: the status filter *)

(** X17.  With the status [active] the filter keeps exactly the active
    users and with [inactive] exactly the others, so each user is in one
    of the two results and not in both, and their sizes add up to the
    number of users; with any other status, [all] included, it returns
    the users unchanged. *)
Theorem filter_splits_the_users (users : list UserTable.TUser) :
  (forall u, In u (UserTable.filteredUsers users "active")
             <-> In u users /\ UserTable.active u = true)
  /\ (forall u, In u (UserTable.filteredUsers users "inactive")
                <-> In u users /\ UserTable.active u = false)
  /\ List.length (UserTable.filteredUsers users "active")
     + List.length (UserTable.filteredUsers users "inactive")
     = List.length users
  /\ (forall status, status <> "active"%string -> status <> "inactive"%string ->
        UserTable.filteredUsers users status = users).
Proof.
  split; [|split; [|split]].
  - intros u. unfold UserTable.filteredUsers. rewrite filter_In. reflexivity.
  - intros u. unfold UserTable.filteredUsers. rewrite filter_In. cbn.
    now rewrite negb_true_iff.
  - unfold UserTable.filteredUsers. cbn.
    induction users as [|u users IH]; [reflexivity|].
    cbn [filter List.length]. destruct (UserTable.active u); cbn [negb List.length]; lia.
  - intros status Ha Hi. unfold UserTable.filteredUsers.
    apply String.eqb_neq in Ha, Hi. rewrite Ha, Hi.
    induction users as [|u users IH]; [reflexivity|].
    cbn [filter]. now rewrite IH.
Qed.

Lemma filter_splits_the_users_witness :
  "all"%string <> "active"%string
  /\ "all"%string <> "inactive"%string
  /\ UserTable.filteredUsers UserTable.sampleUsers "all" = UserTable.sampleUsers.
Proof.
  assert (Ha : "all"%string <> "active"%string) by discriminate.
  assert (Hi : "all"%string <> "inactive"%string) by discriminate.
  split; [exact Ha|]. split; [exact Hi|].
  exact (proj2 (proj2 (proj2 (filter_splits_the_users UserTable.sampleUsers)))
               "all"%string Ha Hi).
Defined.

(* ================================================================= *)
(** ** The user table: the selection *)

Lemma includes_In (x : string) (l : list string) :
  UserTable.includes x l = true <-> In x l.
Proof.
  unfold UserTable.includes. rewrite existsb_exists. split.
  - intros (y & Hy & Hxy). apply String.eqb_eq in Hxy. now subst.
  - intros H. exists x. split; [exact H | apply String.eqb_refl].
Qed.

Lemma includes_false (x : string) (l : list string) :
  UserTable.includes x l = false <-> ~ In x l.
Proof.
  rewrite <- includes_In. destruct (UserTable.includes x l); split;
    congruence || (intros H; now elim H).
Qed.

(** X18.  A click on the checkbox of a user flips whether that user is
    selected and changes it for no other user; so two clicks on the same
    checkbox leave every user as selected or not as before. *)
Theorem toggle_flips_one_user
        (targetUsers : list UserTable.TUser) (uid : string)
        (st : UserTable.Selection) :
  let st1 := UserTable.toggleSelectUser targetUsers uid st in
  let st2 := UserTable.toggleSelectUser targetUsers uid st1 in
  UserTable.includes uid (UserTable.selectedUsers st1)
  = negb (UserTable.includes uid (UserTable.selectedUsers st))
  /\ (forall other, other <> uid ->
        UserTable.includes other (UserTable.selectedUsers st1)
        = UserTable.includes other (UserTable.selectedUsers st))
  /\ (forall any,
        UserTable.includes any (UserTable.selectedUsers st2)
        = UserTable.includes any (UserTable.selectedUsers st)).
Proof.
  assert (Hone : forall s : UserTable.Selection,
             UserTable.includes uid
               (UserTable.selectedUsers (UserTable.toggleSelectUser targetUsers uid s))
             = negb (UserTable.includes uid (UserTable.selectedUsers s))
             /\ (forall other, other <> uid ->
                   UserTable.includes other
                     (UserTable.selectedUsers
                        (UserTable.toggleSelectUser targetUsers uid s))
                   = UserTable.includes other (UserTable.selectedUsers s))).
  { intros s. unfold UserTable.toggleSelectUser.
    destruct (UserTable.includes uid (UserTable.selectedUsers s)) eqn:Hinc;
      cbn [UserTable.selectedUsers negb].
    - split.
      + apply includes_false. rewrite filter_In. intros [_ H].
        now rewrite String.eqb_refl in H.
      + intros other Hne.
        destruct (UserTable.includes other (UserTable.selectedUsers s)) eqn:Ho.
        * apply includes_In. apply filter_In. split; [now apply includes_In|].
          apply negb_true_iff. now apply String.eqb_neq.
        * apply includes_false. rewrite filter_In. intros [H _].
          now apply includes_false in Ho.
    - split.
      + apply includes_In. apply in_or_app. right. now left.
      + intros other Hne.
        destruct (UserTable.includes other (UserTable.selectedUsers s)) eqn:Ho.
        * apply includes_In. apply in_or_app. left. now apply includes_In.
        * apply includes_false. intros H. apply in_app_or in H.
          destruct H as [H|[H|[]]]; [now apply includes_false in Ho | congruence]. }
  intros st1 st2.
  destruct (Hone st) as [H1 H1'].
  destruct (Hone st1) as [H2 H2']. fold st1 in H1, H1'. fold st2 in H2, H2'.
  split; [exact H1|]. split; [exact H1'|].
  intros any. destruct (String.eqb_spec any uid) as [->|Hne].
  - rewrite H2, H1. apply negb_involutive.
  - rewrite H2', H1' by exact Hne. reflexivity.
Qed.

(** X19.  While the list shown stays the same, is not empty and shows no
    user twice, the header checkbox and the selection stay in agreement
    through every click: starting with nothing selected, after any click
    on the checkbox of a user shown or on the header checkbox, no user is
    selected twice, only users shown are selected, and the header
    checkbox is checked exactly when every user shown is selected. *)
Theorem selection_stays_consistent
        (targetUsers : list UserTable.TUser) (st : UserTable.Selection) :
  targetUsers <> [] ->
  NoDup (map UserTable.id targetUsers) ->
  UserTable.consistent targetUsers (UserTable.mkSelection [] false)
  /\ (UserTable.consistent targetUsers st ->
      (forall uid, In uid (map UserTable.id targetUsers) ->
         UserTable.consistent targetUsers
           (UserTable.toggleSelectUser targetUsers uid st))
      /\ UserTable.consistent targetUsers (UserTable.toggleSelectAll targetUsers st)).
Proof.
  intros Hne Hids.
  assert (Hsome : ~ incl (map UserTable.id targetUsers) []).
  { destruct targetUsers as [|u l]; [contradiction|].
    intros H. apply (H (UserTable.id u)). now left. }
  assert (Hnone : UserTable.consistent targetUsers (UserTable.mkSelection [] false)).
  { unfold UserTable.consistent. cbn [UserTable.selectedUsers UserTable.selectAll].
    split; [constructor|]. split; [intros x []|].
    split; [discriminate | intros H; now elim Hsome]. }
  split; [exact Hnone|].
  intros (Hnd & Hincl & Hflag). split.
  - intros uid Huid. unfold UserTable.toggleSelectUser, UserTable.consistent.
    destruct (UserTable.includes uid (UserTable.selectedUsers st)) eqn:Hinc;
      cbn [UserTable.selectedUsers UserTable.selectAll].
    + split; [now apply NoDup_filter|].
      split; [intros x Hx; apply filter_In in Hx; now apply Hincl|].
      split; [discriminate|]. intros Hall. exfalso.
      specialize (Hall uid Huid). apply filter_In in Hall.
      destruct Hall as [_ Hall]. now rewrite String.eqb_refl in Hall.
    + apply includes_false in Hinc.
      assert (Hnd' : NoDup (UserTable.selectedUsers st ++ [uid])).
      { apply NoDup_app; [exact Hnd | repeat constructor; intros [] |].
        intros a Ha [<-|[]]. contradiction. }
      assert (Hincl' : incl (UserTable.selectedUsers st ++ [uid])
                            (map UserTable.id targetUsers)).
      { apply incl_app; [exact Hincl|]. intros x [<-|[]]. exact Huid. }
      split; [exact Hnd'|]. split; [exact Hincl'|].
      destruct (Nat.eqb_spec (List.length (UserTable.selectedUsers st) + 1)
                             (List.length targetUsers)) as [Hlen|Hlen].
      * split; [|reflexivity]. intros _.
        apply (NoDup_length_incl Hnd'); [|exact Hincl'].
        rewrite length_map, length_app. cbn [List.length]. lia.
      * split.
        -- intros Htrue. apply Hflag in Htrue. intros x Hx.
           apply in_or_app. left. now apply Htrue.
        -- intros Hall. exfalso. apply Hlen.
           pose proof (NoDup_incl_length Hids Hall) as H1.
           pose proof (NoDup_incl_length Hnd' Hincl') as H2.
           rewrite length_map, length_app in *. cbn [List.length] in *. lia.
  - unfold UserTable.toggleSelectAll.
    destruct (UserTable.selectAll st); [exact Hnone|].
    unfold UserTable.consistent. cbn [UserTable.selectedUsers UserTable.selectAll negb].
    split; [exact Hids|]. split; [apply incl_refl|].
    split; [intros _; apply incl_refl | reflexivity].
Qed.

(** Two users shown, the first selected: a click on the second checks the
    header checkbox. *)
Lemma selection_stays_consistent_witness :
  let shown := [UserTable.sampleUser "user-1" true;
                UserTable.sampleUser "user-2" false] in
  let st := UserTable.mkSelection ["user-1"%string] false in
  shown <> []
  /\ NoDup (map UserTable.id shown)
  /\ UserTable.consistent shown st
  /\ In "user-2"%string (map UserTable.id shown)
  /\ UserTable.consistent shown (UserTable.toggleSelectUser shown "user-2" st)
  /\ UserTable.selectAll (UserTable.toggleSelectUser shown "user-2" st) = true.
Proof.
  intros shown st.
  assert (Hne : shown <> []) by discriminate.
  assert (Hids : NoDup (map UserTable.id shown)).
  { constructor; [intros [H|[]]; discriminate H|].
    constructor; [intros []|constructor]. }
  assert (Hst : UserTable.consistent shown st).
  { split; [constructor; [intros []|constructor]|].
    split; [intros x [<-|[]]; now left|].
    split; [discriminate|]. intros H. exfalso.
    destruct (H "user-2"%string (or_intror (or_introl eq_refl))) as [E|[]].
    discriminate E. }
  assert (Hin : In "user-2"%string (map UserTable.id shown))
    by (right; left; reflexivity).
  split; [exact Hne|]. split; [exact Hids|]. split; [exact Hst|].
  split; [exact Hin|].
  split; [|reflexivity].
  exact (proj1 (proj2 (@selection_stays_consistent shown st Hne Hids) Hst)
               "user-2"%string Hin).
Defined.

(* ================================================================= *)
(** ** The user table: the infinite scroll *)

(** A load started when the rows shown are the first [m] rows of the
    sorted list ends with the first [m + 20] shown. *)
Lemma loadMore_prefix (sortedUsers : list UserTable.TUser) (m : nat) :
  UserTable.loadMore sortedUsers (UserTable.mkScroll (firstn m sortedUsers) false)
  = UserTable.mkScroll (firstn (m + 20) sortedUsers) false.
Proof.
  unfold UserTable.loadMore, UserTable.loadMoreItems.
  cbn [UserTable.loadingMore UserTable.visibleUsers orb].
  rewrite length_firstn.
  destruct (Z.geb_spec (Z.of_nat (Nat.min m (List.length sortedUsers)))
                       (Z.of_nat (List.length sortedUsers))) as [Hall|Hmore].
  - f_equal. rewrite !firstn_all2 by lia. reflexivity.
  - unfold UserTable.loadMoreTimer. cbn [UserTable.visibleUsers]. f_equal.
    rewrite Nat.min_l by lia.
    change UserTable.infiniteScrollChunkSize with (Z.of_nat 20).
    rewrite <- Nat2Z.inj_add, slice_nat, firstn_plus. do 2 f_equal. lia.
Qed.

(** X20.  While the sorted list stays the same: when the infinite scroll
    is entered with no load in progress, the rows shown are the first 20
    rows of the sorted list; and after [loads] loads, each run from its
    start to the callback of its timer before the next one starts, the
    rows shown are the first [20 * (loads + 1)] rows of the sorted list,
    in its order, and no load is in progress.  Once every row is shown a
    call to loadMoreItems sets no timer; and right after a call that has
    set a timer, while that load is in progress, a second call sets no
    timer, so no chunk is appended twice. *)
Theorem infinite_scroll_shows_a_prefix
        (sortedUsers shownBefore : list UserTable.TUser) (loads : nat) :
  let entered := UserTable.resetVisible sortedUsers
                   (UserTable.mkScroll shownBefore false) in
  let st := Nat.iter loads (UserTable.loadMore sortedUsers) entered in
  st = UserTable.mkScroll (firstn (20 * (loads + 1)) sortedUsers) false
  /\ (List.length sortedUsers <= 20 * (loads + 1) ->
      UserTable.visibleUsers st = sortedUsers
      /\ UserTable.loadMoreItems sortedUsers st = (st, None))
  /\ (forall st' nextItems,
        UserTable.loadMoreItems sortedUsers st = (st', Some nextItems) ->
        UserTable.loadMoreItems sortedUsers st' = (st', None)).
Proof.
  intros entered st.
  assert (Hst : st = UserTable.mkScroll (firstn (20 * (loads + 1)) sortedUsers) false).
  { subst st. induction loads as [|loads IH].
    - subst entered. unfold UserTable.resetVisible. cbn [Nat.iter UserTable.loadingMore].
      change 0%Z with (Z.of_nat 0).
      change UserTable.infiniteScrollChunkSize with (Z.of_nat 20).
      now rewrite slice_nat.
    - change (Nat.iter (S loads) (UserTable.loadMore sortedUsers) entered)
        with (UserTable.loadMore sortedUsers
                (Nat.iter loads (UserTable.loadMore sortedUsers) entered)).
      rewrite IH, loadMore_prefix. do 2 f_equal. lia. }
  split; [exact Hst|]. split.
  - intros Hall. rewrite Hst. cbn [UserTable.visibleUsers].
    rewrite firstn_all2 by lia. split; [reflexivity|].
    unfold UserTable.loadMoreItems. cbn [UserTable.loadingMore UserTable.visibleUsers orb].
    destruct (Z.geb_spec (Z.of_nat (List.length sortedUsers))
                         (Z.of_nat (List.length sortedUsers))); [reflexivity|lia].
  - intros st' nextItems. unfold UserTable.loadMoreItems at 1.
    destruct (UserTable.loadingMore st
              || (Z.of_nat (List.length (UserTable.visibleUsers st))
                  >=? Z.of_nat (List.length sortedUsers))%Z); [discriminate|].
    intros H. injection H as <- _. reflexivity.
Qed.

(** Seven users: they are all shown at once, and nothing more is loaded. *)
Lemma infinite_scroll_shows_a_prefix_witness :
  List.length UserTable.sampleUsers <= 20 * (0 + 1)
  /\ UserTable.visibleUsers
       (Nat.iter 0 (UserTable.loadMore UserTable.sampleUsers)
          (UserTable.resetVisible UserTable.sampleUsers (UserTable.mkScroll [] false)))
     = UserTable.sampleUsers.
Proof.
  assert (H : List.length UserTable.sampleUsers <= 20 * (0 + 1)) by (cbn; lia).
  split; [exact H|].
  exact (proj1 (proj1 (proj2 (@infinite_scroll_shows_a_prefix
                                UserTable.sampleUsers [] 0)) H)).
Defined.
